(** * tsumitate-simulator: the index data fetch script

    A shallow embedding of [fetch_index_data_v2.py] and the properties of
    its four stages: the fetcher ([fetch_data]), the aligner/converter
    ([process_data]), the serializer ([save_to_json]) and the entry point
    ([main]).

    Prices are IEEE binary64 numbers (Rocq's primitive floats), a missing
    value is a not-a-number as in pandas.  Index labels are timestamps in
    nanoseconds since the epoch, as a [DatetimeIndex] stores them.  Python
    exceptions are an explicit error result.  The pandas operations the
    script calls are modelled by what they do on a frame of float columns
    over one index. *)

From Stdlib Require Import ZArith List String Ascii Bool Lia.
From Stdlib Require Import Sorted Permutation.
From Stdlib Require Import PrimFloat.
From Stdlib Require SpecFloat FloatOps FloatAxioms.
Import ListNotations.
Open Scope Z_scope.

(** ** Python exceptions and results *)

Module Py.

Inductive exn : Type :=
| KeyError (key : string)
| IndexError
| ValueError
| ProviderError (msg : string).

Inductive result (A : Type) : Type :=
| Ok (a : A)
| Raise (e : exn).

Arguments Ok {A} a.
Arguments Raise {A} e.

Definition bind {A B : Type} (m : result A) (k : A -> result B) : result B :=
  match m with
  | Ok a => k a
  | Raise e => Raise e
  end.

End Py.
Import Py.

Notation "x <- m ;; k" := (bind m (fun x => k))
  (at level 61, m at next level, right associativity).

(** ** Floats: missing values and [round(x, 2)] *)

Module Float64.

(** [pd.notna] on a float. *)
Definition notna (x : float) : bool := negb (is_nan x).

(** Nearest integer to [n / d] for [0 <= n], [0 < d], ties to even. *)
Definition round_half_even (n d : Z) : Z :=
  let q := n / d in
  let r := n mod d in
  match 2 * r ?= d with
  | Lt => q
  | Gt => q + 1
  | Eq => if Z.even q then q else q + 1
  end.

(** Python's [round(x, 2)] on a float: not-a-number and the infinities
    round to themselves; a finite [x = m * 2^e] is rounded, from its exact
    value, to the nearest multiple of 1/100 (ties to even), and the result
    is the binary64 number nearest to that decimal.  The sign of [x] is
    kept, also on a zero result. *)
Definition round2 (x : float) : float :=
  match FloatOps.Prim2SF x with
  | SpecFloat.S754_finite s m e =>
      if 0 <=? e then x
      else
        match round_half_even (Z.pos m * 100) (2 ^ (- e)) with
        | Z.pos q =>
            FloatOps.SF2Prim
              (SpecFloat.SFdiv FloatOps.prec FloatOps.emax
                 (SpecFloat.S754_finite s q 0)
                 (SpecFloat.S754_finite false 100 0))
        | _ => FloatOps.SF2Prim (SpecFloat.S754_zero s)
        end
  | _ => x
  end.

End Float64.
Import Float64.

(** ** Timestamps and [strftime('%Y-%m-%d')] *)

Module Datetime.

(** Nanoseconds since 1970-01-01T00:00:00. *)
Definition Timestamp := Z.

Definition ns_per_day : Z := 86400 * 1000000000.

(** Days since the epoch to the civil date (year, month, day) of the
    proleptic Gregorian calendar. *)
Definition civil_from_days (z : Z) : Z * Z * Z :=
  let z := z + 719468 in
  let era := z / 146097 in
  let doe := z - era * 146097 in
  let yoe := (doe - doe / 1460 + doe / 36524 - doe / 146096) / 365 in
  let y := yoe + era * 400 in
  let doy := doe - (365 * yoe + yoe / 4 - yoe / 100) in
  let mp := (5 * doy + 2) / 153 in
  let d := doy - (153 * mp + 2) / 5 + 1 in
  let m := if mp <? 10 then mp + 3 else mp - 9 in
  (if m <=? 2 then y + 1 else y, m, d).

Definition days_from_civil (y m d : Z) : Z :=
  let y := if m <=? 2 then y - 1 else y in
  let era := y / 400 in
  let yoe := y - era * 400 in
  let doy := (153 * (if 2 <? m then m - 3 else m + 9) + 2) / 5 + d - 1 in
  let doe := yoe * 365 + yoe / 4 - yoe / 100 + doy in
  era * 146097 + doe - 719468.

(** The timestamp of midnight on a civil date. *)
Definition of_ymd (y m d : Z) : Timestamp := days_from_civil y m d * ns_per_day.

Definition digit (n : Z) : ascii := ascii_of_nat (48 + Z.to_nat (n mod 10)).

Definition pad2 (n : Z) : string :=
  String (digit (n / 10)) (String (digit n) EmptyString).

Definition pad4 (n : Z) : string :=
  String (digit (n / 1000)) (String (digit (n / 100)) (pad2 n)).

(** [t.strftime('%Y-%m-%d')], for the four-digit years a pandas timestamp
    can hold (1677 to 2262). *)
Definition strftime_ymd (t : Timestamp) : string :=
  let '(y, m, d) := civil_from_days (t / ns_per_day) in
  (pad4 y ++ "-" ++ pad2 m ++ "-" ++ pad2 d)%string.

Definition pad6 (n : Z) : string :=
  (pad2 (n / 10000) ++ pad4 n)%string.

(** [t.isoformat()] of a [datetime]: date, [T], time of day and, when they
    are not zero, the microseconds. *)
Definition isoformat (t : Timestamp) : string :=
  let ns := t mod ns_per_day in
  let s := ns / 1000000000 in
  let us := (ns / 1000) mod 1000000 in
  let hms :=
    (pad2 (s / 3600) ++ ":" ++ pad2 ((s / 60) mod 60) ++ ":" ++ pad2 (s mod 60))%string in
  let frac := if us =? 0 then EmptyString else String "." (pad6 us) in
  (strftime_ymd t ++ "T" ++ hms ++ frac)%string.

End Datetime.
Import Datetime.

(** ** The pandas operations of the script *)

Module Pandas.

(** A series: index labels and values, in storage order. *)
Definition Series := list (Timestamp * float).

Definition s_index (s : Series) : list Timestamp := map fst s.
Definition s_values (s : Series) : list float := map snd s.

(** The value a series holds at a label. *)
Fixpoint s_find (t : Timestamp) (s : Series) : option float :=
  match s with
  | [] => None
  | (k, v) :: s' => if k =? t then Some v else s_find t s'
  end.

(** The value a reindexed series has at label [t]: missing when the
    series has no such label. *)
Definition s_at (s : Series) (t : Timestamp) : float :=
  match s_find t s with
  | Some v => v
  | None => nan
  end.

(** One row of a frame: a value per column name. *)
Definition Row := list (string * float).

Fixpoint row_find (c : string) (r : Row) : option float :=
  match r with
  | [] => None
  | (k, v) :: r' => if String.eqb k c then Some v else row_find c r'
  end.

Definition row_val (c : string) (r : Row) : float :=
  match row_find c r with
  | Some v => v
  | None => nan
  end.

Fixpoint row_set (c : string) (v : float) (r : Row) : Row :=
  match r with
  | [] => [(c, v)]
  | (k, x) :: r' =>
      if String.eqb k c then (k, v) :: r' else (k, x) :: row_set c v r'
  end.

(** [row[c]] on a row yielded by [iterrows]. *)
Definition row_getitem (c : string) (r : Row) : result float :=
  match row_find c r with
  | Some v => Ok v
  | None => Raise (KeyError c)
  end.

(** A frame of float columns: the column names and, per index label in
    storage order, the row of values. *)
Record DataFrame : Type := mkDF {
  columns : list string;
  rows : list (Timestamp * Row)
}.

Definition df_index (df : DataFrame) : list Timestamp := map fst (rows df).

(** [len(df)] *)
Definition len (df : DataFrame) : nat := List.length (rows df).

(** [pd.DataFrame()] *)
Definition empty_frame : DataFrame := mkDF [] [].

Definition has_column (c : string) (df : DataFrame) : bool :=
  existsb (String.eqb c) (columns df).

Fixpoint mem_ts (t : Timestamp) (l : list Timestamp) : bool :=
  match l with
  | [] => false
  | k :: l' => (k =? t) || mem_ts t l'
  end.

(** [index.is_unique] *)
Fixpoint is_unique (l : list Timestamp) : bool :=
  match l with
  | [] => true
  | k :: l' => negb (mem_ts k l') && is_unique l'
  end.

(** [a.equals(b)] on two indexes. *)
Fixpoint index_equals (a b : list Timestamp) : bool :=
  match a, b with
  | [], [] => true
  | x :: a', y :: b' => (x =? y) && index_equals a' b'
  | _, _ => false
  end.

(** First step of [df[c] = s]: a frame without rows takes the index of a
    non-empty series, its columns filled with missing values. *)
Definition ensure_valid_index (df : DataFrame) (s : Series) : DataFrame :=
  match rows df, s with
  | [], _ :: _ =>
      mkDF (columns df)
           (map (fun t => (t, map (fun c => (c, nan)) (columns df))) (s_index s))
  | _, _ => df
  end.

(** Second step of [df[c] = s]: the values of [s] conformed to the index
    of the frame.  A series over the same index is taken as it is; any
    other is reindexed, label by label, and a label of the frame the
    series does not have gives a missing value; labels of the series the
    frame does not have are left out.  Reindexing a series with repeated
    labels raises. *)
Definition reindex_for_setitem (s : Series) (df : DataFrame) : result (list float) :=
  if index_equals (s_index s) (df_index df) || (List.length (df_index df) =? 0)%nat
  then Ok (s_values s)
  else if is_unique (s_index s)
       then Ok (map (s_at s) (df_index df))
       else Raise ValueError.

Definition set_column (df : DataFrame) (c : string) (vals : list float) : DataFrame :=
  mkDF (if has_column c df then columns df else columns df ++ [c])
       (map (fun rv => (fst (fst rv), row_set c (snd rv) (snd (fst rv))))
            (combine (rows df) vals)).

(** [df[c] = s] *)
Definition setitem (df : DataFrame) (c : string) (s : Series) : result DataFrame :=
  let df1 := ensure_valid_index df s in
  vals <- reindex_for_setitem s df1 ;;
  Ok (set_column df1 c vals).

(** [df[c]] *)
Definition getitem (df : DataFrame) (c : string) : result Series :=
  if has_column c df
  then Ok (map (fun tr => (fst tr, row_val c (snd tr))) (rows df))
  else Raise (KeyError c).

(** [a * b] on two columns of one frame, which share its index. *)
Definition s_mul (a b : Series) : Series :=
  map (fun xy => (fst (fst xy), (snd (fst xy) * snd (snd xy))%float)) (combine a b).

(** [df[[c1, ..., cn]]] *)
Definition select_columns (df : DataFrame) (cs : list string) : result DataFrame :=
  match find (fun c => negb (has_column c df)) cs with
  | Some c => Raise (KeyError c)
  | None =>
      Ok (mkDF cs (map (fun tr => (fst tr, map (fun c => (c, row_val c (snd tr))) cs))
                       (rows df)))
  end.

(** [df.columns = names] *)
Definition set_column_names (df : DataFrame) (names : list string) : result DataFrame :=
  if (List.length names =? List.length (columns df))%nat
  then Ok (mkDF names (map (fun tr => (fst tr, combine names (map snd (snd tr))))
                           (rows df)))
  else Raise ValueError.

(** [df.sort_index()]: rows in ascending order of their labels. *)
Fixpoint insert_row (x : Timestamp * Row) (l : list (Timestamp * Row)) :=
  match l with
  | [] => [x]
  | y :: l' => if fst x <=? fst y then x :: y :: l' else y :: insert_row x l'
  end.

Definition sort_rows (l : list (Timestamp * Row)) : list (Timestamp * Row) :=
  fold_right insert_row [] l.

Definition sort_index (df : DataFrame) : DataFrame :=
  mkDF (columns df) (sort_rows (rows df)).

(** [df.ffill()]: down each column, a missing value takes the last value
    above it that is not missing; [last] is the filled row above. *)
Definition fill_row (last r : Row) : Row :=
  map (fun cv => (fst cv, if is_nan (snd cv) then row_val (fst cv) last else snd cv)) r.

Fixpoint ffill_rows (last : Row) (rs : list (Timestamp * Row)) : list (Timestamp * Row) :=
  match rs with
  | [] => []
  | (t, r) :: rs' =>
      let r' := fill_row last r in
      (t, r') :: ffill_rows r' rs'
  end.

Definition ffill (df : DataFrame) : DataFrame :=
  mkDF (columns df) (ffill_rows [] (rows df)).

(** [df.dropna()]: the rows without a missing value. *)
Definition row_complete (r : Row) : bool :=
  forallb (fun cv => notna (snd cv)) r.

Definition dropna (df : DataFrame) : DataFrame :=
  mkDF (columns df) (filter (fun tr => row_complete (snd tr)) (rows df)).

(** [df.index[0]] and [df.index[-1]] *)
Definition index_first (df : DataFrame) : result Timestamp :=
  match df_index df with
  | [] => Raise IndexError
  | t :: _ => Ok t
  end.

Definition index_last (df : DataFrame) : result Timestamp :=
  match rev (df_index df) with
  | [] => Raise IndexError
  | t :: _ => Ok t
  end.

(** [s.dropna()] on a series. *)
Definition s_dropna (s : Series) : Series :=
  filter (fun tv => notna (snd tv)) s.

(** [s.min()] and [s.max()] of a series without missing values. *)
Definition s_min (s : Series) : float :=
  match s_values s with
  | [] => nan
  | v :: vs => fold_left (fun a b => if (b <? a)%float then b else a) vs v
  end.

Definition s_max (s : Series) : float :=
  match s_values s with
  | [] => nan
  | v :: vs => fold_left (fun a b => if (a <? b)%float then b else a) vs v
  end.

End Pandas.
Import Pandas.

(** ** The world the script runs in *)

Module Sys.

(** The value of a numeric field in the document handed to [json.dump]:
    Python's [None], written as [null], or a float, written as a number
    (a not-a-number float is written as the token [NaN]). *)
Inductive jvalue : Type :=
| JNull
| JNumber (x : float).

(** One element of the [data] list. *)
Record DataRecord : Type := mkRecord {
  date : string;
  acwi : jvalue;
  fang : jvalue;
  nikkei : jvalue;
  usdjpy : jvalue
}.

Record Metadata : Type := mkMetadata {
  generated_at : string;
  start_date : string;
  end_date : string;
  total_records : nat;
  description : list (string * string)
}.

(** The dictionary [output] of [save_to_json]. *)
Record OutputDocument : Type := mkDocument {
  metadata : Metadata;
  data : list DataRecord
}.

(** What one [print] call writes. *)
Inductive Line : Type :=
| LRule (ch : string) (n : nat)
| LTitle
| LPeriod (first last : string)
| LFetching (name ticker : string)
| LFetched (n : nat) (first last : string)
| LNoData
| LFetchError (e : exn)
| LMissingData
| LProcessing
| LProcessed (n : nat)
| LSaving
| LSaved (path : string)
| LSummaryTitle
| LSummaryHead (col : string)
| LSummaryPeriod (first last : string)
| LSummaryCount (n : nat)
| LSummaryMin (x : float)
| LSummaryMax (x : float)
| LSummaryLatest (x : float)
| LDone
| LJsonFile (path : string).

(** The clock, the directories and files of the working directory, and
    the console. *)
Record World : Type := mkWorld {
  clock : Timestamp;
  dirs : list string;
  files : list (string * OutputDocument);
  console : list Line
}.

(** A computation that reads and changes the world and returns or raises. *)
Definition M (A : Type) : Type := World -> World * result A.

Definition ret {A : Type} (a : A) : M A := fun w => (w, Ok a).

Definition raise {A : Type} (e : exn) : M A := fun w => (w, Raise e).

Definition lift {A : Type} (r : result A) : M A := fun w => (w, r).

Definition bindM {A B : Type} (m : M A) (k : A -> M B) : M B :=
  fun w =>
    match m w with
    | (w', Ok a) => k a w'
    | (w', Raise e) => (w', Raise e)
    end.

(** [try: m except Exception as e: h e] *)
Definition try_except {A : Type} (m : M A) (h : exn -> M A) : M A :=
  fun w =>
    match m w with
    | (w', Ok a) => (w', Ok a)
    | (w', Raise e) => h e w'
    end.

(** [print(...)] *)
Definition print (l : Line) : M unit :=
  fun w => (mkWorld (clock w) (dirs w) (files w) (console w ++ [l]), Ok tt).

(** [datetime.now()] *)
Definition datetime_now : M Timestamp := fun w => (w, Ok (clock w)).

(** [os.makedirs(d, exist_ok=True)] *)
Definition makedirs (d : string) : M unit :=
  fun w =>
    (mkWorld (clock w)
             (if existsb (String.eqb d) (dirs w) then dirs w else dirs w ++ [d])
             (files w) (console w),
     Ok tt).

Fixpoint put_file (path : string) (doc : OutputDocument)
  (fs : list (string * OutputDocument)) : list (string * OutputDocument) :=
  match fs with
  | [] => [(path, doc)]
  | (p, d) :: fs' =>
      if String.eqb p path then (p, doc) :: fs' else (p, d) :: put_file path doc fs'
  end.

(** [with open(path, 'w') as f: json.dump(doc, f, ...)]: the file at
    [path] holds the document, whatever it held before. *)
Definition json_dump (path : string) (doc : OutputDocument) : M unit :=
  fun w => (mkWorld (clock w) (dirs w) (put_file path doc (files w)) (console w), Ok tt).

Fixpoint read_file (path : string) (fs : list (string * OutputDocument))
  : option OutputDocument :=
  match fs with
  | [] => None
  | (p, d) :: fs' => if String.eqb p path then Some d else read_file path fs'
  end.

(** The provider: [yf.download(ticker, start=..., end=..., ...)] returns a
    table or raises. *)
Inductive Response : Type :=
| SingleLevel (index : list Timestamp) (cols : list (string * list float))
| MultiLevel (index : list Timestamp) (cols : list ((string * string) * list float)).

Definition Provider : Type := string -> Timestamp -> Timestamp -> result Response.

Definition download (yf : Provider) (ticker : string) (start stop : Timestamp)
  : M Response :=
  fun w => (w, yf ticker start stop).

End Sys.
Import Sys.

Notation "x <-- m ;;; k" := (bindM m (fun x => k))
  (at level 61, m at next level, right associativity).
Notation "m ;;; k" := (bindM m (fun _ => k))
  (at level 61, right associativity).

(** ** The script *)

Module Script.

Local Open Scope string_scope.

Definition OUTPUT_DIR : string := "data".
Definition OUTPUT_FILE : string := "index_data.json".
Definition YEARS_BACK : Z := 20.

(** Logical name and provider ticker, in the order of the dictionary. *)
Definition TICKERS : list (string * string) :=
  [("acwi", "ACWI"); ("fang", "^NYFANG"); ("nikkei", "^N225"); ("usdjpy", "USDJPY=X")].

(** [len(df)] of a response. *)
Definition response_len (df : Response) : nat :=
  match df with
  | SingleLevel idx _ => List.length idx
  | MultiLevel idx _ => List.length idx
  end.

Definition response_index (df : Response) : list Timestamp :=
  match df with
  | SingleLevel idx _ => idx
  | MultiLevel idx _ => idx
  end.

(** [needle in hay] on two strings. *)
Definition contains (needle hay : string) : bool :=
  match String.index 0 needle hay with
  | Some _ => true
  | None => false
  end.

(** [df[key]] on a response whose column labels are distinct: the column
    with that label, as a series over the index of the response. *)
Fixpoint column_of {K : Type} (eqb : K -> K -> bool) (key : K)
  (cols : list (K * list float)) : option (list float) :=
  match cols with
  | [] => None
  | (k, vals) :: cols' => if eqb k key then Some vals else column_of eqb key cols'
  end.

Definition key2_eqb (a b : string * string) : bool :=
  String.eqb (fst a) (fst b) && String.eqb (snd a) (snd b).

Definition response_getitem {K : Type} (eqb : K -> K -> bool) (label : K -> string)
  (idx : list Timestamp) (cols : list (K * list float)) (key : K) : result Series :=
  match column_of eqb key cols with
  | Some vals => Ok (combine idx vals)
  | None => Raise (KeyError (label key))
  end.

(** [df.iloc[:, 0]] *)
Definition response_iloc0 {K : Type} (idx : list Timestamp)
  (cols : list (K * list float)) : result Series :=
  match cols with
  | [] => Raise IndexError
  | (_, vals) :: _ => Ok (combine idx vals)
  end.

(** The column [fetch_data] keeps of a response (lines 51 to 66). *)
Definition select_price (df : Response) : result Series :=
  match df with
  | MultiLevel idx cols =>
      let close_col := filter (fun col => contains "Close" (fst col)) (map fst cols) in
      match close_col with
      | key :: _ => response_getitem key2_eqb fst idx cols key
      | [] => response_iloc0 idx cols
      end
  | SingleLevel idx cols =>
      if existsb (String.eqb "Close") (map fst cols)
      then response_getitem String.eqb (fun k => k) idx cols "Close"
      else if existsb (String.eqb "Adj Close") (map fst cols)
           then response_getitem String.eqb (fun k => k) idx cols "Adj Close"
           else response_iloc0 idx cols
  end.

(** A Python dictionary with string keys, in insertion order. *)
Definition Dict (V : Type) : Type := list (string * V).

Fixpoint dict_set {V : Type} (k : string) (v : V) (d : Dict V) : Dict V :=
  match d with
  | [] => [(k, v)]
  | (k', v') :: d' =>
      if String.eqb k' k then (k', v) :: d' else (k', v') :: dict_set k v d'
  end.

(** The body of the loop of [fetch_data] for one symbol. *)
Definition fetch_one (yf : Provider) (start stop : Timestamp)
  (name ticker : string) (data : Dict Series) : M (Dict Series) :=
  print (LFetching name ticker) ;;;
  try_except
    (df <-- download yf ticker start stop ;;;
     if (0 <? response_len df)%nat
     then
       s <-- lift (select_price df) ;;;
       let data' := dict_set name s data in
       (* an exception below is caught with [data[name]] already set *)
       try_except
         (first <-- lift (match response_index df with
                          | t :: _ => Ok t
                          | [] => Raise IndexError
                          end) ;;;
          last <-- lift (match rev (response_index df) with
                         | t :: _ => Ok t
                         | [] => Raise IndexError
                         end) ;;;
          print (LFetched (response_len df) (strftime_ymd first) (strftime_ymd last)) ;;;
          ret data')
         (fun e => print (LFetchError e) ;;; ret data')
     else
       print LNoData ;;; ret data)
    (fun e => print (LFetchError e) ;;; ret data).

Fixpoint fetch_loop (yf : Provider) (start stop : Timestamp)
  (tickers : list (string * string)) (data : Dict Series) : M (Dict Series) :=
  match tickers with
  | [] => ret data
  | (name, ticker) :: rest =>
      data' <-- fetch_one yf start stop name ticker data ;;;
      fetch_loop yf start stop rest data'
  end.

Definition fetch_data (yf : Provider) : M (Dict Series) :=
  end_date <-- datetime_now ;;;
  let start_date := end_date - (YEARS_BACK * 365) * ns_per_day in
  print (LPeriod (strftime_ymd start_date) (strftime_ymd end_date)) ;;;
  print (LRule "-" 50) ;;;
  fetch_loop yf start_date end_date TICKERS [].

(** The loop of [process_data] (lines 83 to 85). *)
Fixpoint join_loop (data : Dict Series) (df : DataFrame) : result DataFrame :=
  match data with
  | [] => Ok df
  | (name, series) :: rest =>
      df' <- setitem df name series ;;
      join_loop rest df'
  end.

(** The table computed by [process_data] (lines 83 to 103). *)
Definition process_table (data : Dict Series) : result DataFrame :=
  df <- join_loop data empty_frame ;;
  let df := sort_index df in
  let df := ffill df in
  a <- getitem df "acwi" ;;
  u <- getitem df "usdjpy" ;;
  df <- setitem df "acwi_jpy" (s_mul a u) ;;
  f <- getitem df "fang" ;;
  u <- getitem df "usdjpy" ;;
  df <- setitem df "fang_jpy" (s_mul f u) ;;
  n <- getitem df "nikkei" ;;
  df <- setitem df "nikkei_jpy" n ;;
  result <- select_columns df ["acwi_jpy"; "fang_jpy"; "nikkei_jpy"; "usdjpy"] ;;
  result <- set_column_names result ["acwi"; "fang"; "nikkei"; "usdjpy"] ;;
  Ok (dropna result).

Definition process_data (data : Dict Series) : M DataFrame :=
  print (LRule "-" 50) ;;;
  print LProcessing ;;;
  result <-- lift (process_table data) ;;;
  print (LProcessed (len result)) ;;;
  ret result.

Definition DESCRIPTION : list (string * string) :=
  [("acwi", "オルカン連動指数（MSCI ACWI）円換算");
   ("fang", "FANG+連動指数（NYSE FANG+）円換算");
   ("nikkei", "日経平均株価");
   ("usdjpy", "為替レート（USD/JPY）")].

(** The dictionary appended for one row (lines 137 to 143). *)
Definition record_of_row (date : Timestamp) (row : Row) : result DataRecord :=
  a <- row_getitem "acwi" row ;;
  f0 <- row_getitem "fang" row ;;
  f <- (if notna f0
        then (f1 <- row_getitem "fang" row ;; Ok (JNumber (round2 f1)))
        else Ok JNull) ;;
  n <- row_getitem "nikkei" row ;;
  u <- row_getitem "usdjpy" row ;;
  Ok (mkRecord (strftime_ymd date) (JNumber (round2 a)) f
               (JNumber (round2 n)) (JNumber (round2 u))).

(** The loop over [df.iterrows()] (lines 136 to 143). *)
Fixpoint records_of_rows (rs : list (Timestamp * Row)) (acc : list DataRecord)
  : result (list DataRecord) :=
  match rs with
  | [] => Ok acc
  | (date, row) :: rs' =>
      r <- record_of_row date row ;;
      records_of_rows rs' (acc ++ [r])%list
  end.

(** [os.path.join(OUTPUT_DIR, OUTPUT_FILE)] *)
Definition filepath : string := OUTPUT_DIR ++ "/" ++ OUTPUT_FILE.

Definition save_to_json (df : DataFrame) : M string :=
  print (LRule "-" 50) ;;;
  print LSaving ;;;
  makedirs OUTPUT_DIR ;;;
  now <-- datetime_now ;;;
  first <-- lift (index_first df) ;;;
  last <-- lift (index_last df) ;;;
  let meta := mkMetadata (isoformat now) (strftime_ymd first) (strftime_ymd last)
                         (len df) DESCRIPTION in
  recs <-- lift (records_of_rows (rows df) []) ;;;
  json_dump filepath (mkDocument meta recs) ;;;
  print (LSaved filepath) ;;;
  ret filepath.

(** The body of the loop of [show_summary] for one column. *)
Definition summary_of (df : DataFrame) (col : string) : M unit :=
  s <-- lift (getitem df col) ;;;
  let valid_data := s_dropna s in
  match valid_data, rev valid_data with
  | (first, _) :: _, (last, latest) :: _ =>
      print (LSummaryHead col) ;;;
      print (LSummaryPeriod (strftime_ymd first) (strftime_ymd last)) ;;;
      print (LSummaryCount (List.length valid_data)) ;;;
      print (LSummaryMin (s_min valid_data)) ;;;
      print (LSummaryMax (s_max valid_data)) ;;;
      print (LSummaryLatest latest)
  | _, _ => ret tt
  end.

Definition show_summary (df : DataFrame) : M unit :=
  print (LRule "-" 50) ;;;
  print LSummaryTitle ;;;
  print (LRule "-" 50) ;;;
  summary_of df "acwi" ;;;
  summary_of df "fang" ;;;
  summary_of df "nikkei".

Definition main (yf : Provider) : M unit :=
  print (LRule "=" 50) ;;;
  print LTitle ;;;
  print (LRule "=" 50) ;;;
  raw_data <-- fetch_data yf ;;;
  if (List.length raw_data <? 4)%nat
  then print LMissingData
  else
    processed <-- process_data raw_data ;;;
    path <-- save_to_json processed ;;;
    show_summary processed ;;;
    print (LRule "=" 50) ;;;
    print LDone ;;;
    print (LJsonFile path) ;;;
    print (LRule "=" 50).

End Script.
Import Script.

(** ** The notions the properties are stated with *)

Module Notions.

Local Open Scope string_scope.

(** The dictionary [fetch_data] returns when all four symbols were
    fetched: the four series, keyed in the order of [TICKERS]. *)
Definition raw_data (sa sf sn su : Series) : Dict Series :=
  [("acwi", sa); ("fang", sf); ("nikkei", sn); ("usdjpy", su)].

(** A raw series as the fetcher stores it: at least one entry, one entry
    per date. *)
Definition valid_series (s : Series) : Prop :=
  s <> [] /\ NoDup (s_index s).

(** The series has an observation at [t]: an entry whose value is not
    missing. *)
Definition observed (s : Series) (t : Timestamp) : Prop :=
  is_nan (s_at s t) = false.

(** [v] is the forward fill of [s] at [t] along the dates [idx]: the value
    of [s] at the latest date of [idx], not after [t], at which [s] has an
    observation; missing when there is no such date. *)
Definition filled (idx : list Timestamp) (s : Series) (t : Timestamp) (v : float) : Prop :=
  (exists t', In t' idx /\ t' <= t /\ observed s t' /\ v = s_at s t' /\
              forall t'', In t'' idx -> t'' <= t -> observed s t'' -> t'' <= t')
  \/ (v = nan /\ forall t', In t' idx -> t' <= t -> ~ observed s t').

(** A row of the four final fields. *)
Definition row4 (a f n u : float) : Row :=
  [("acwi", a); ("fang", f); ("nikkei", n); ("usdjpy", u)].

Definition FIELDS : list string := ["acwi"; "fang"; "nikkei"; "usdjpy"].

(** The union date index of four series. *)
Definition union_index (sa sf sn su : Series) : list Timestamp :=
  (s_index sa ++ s_index sf ++ s_index sn ++ s_index su)%list.

(** Forward fill down one column: [d] is the filled value above. *)
Fixpoint scan (d : float) (s : Series) : Series :=
  match s with
  | [] => []
  | (t, v) :: s' =>
      let w := if is_nan v then d else v in
      (t, w) :: scan w s'
  end.

(** The currency conversion of one forward-filled row. *)
Definition convert_row (tr : Timestamp * Row) : Timestamp * Row :=
  (fst tr,
   row4 (row_val "acwi" (snd tr) * row_val "usdjpy" (snd tr))%float
        (row_val "fang" (snd tr) * row_val "usdjpy" (snd tr))%float
        (row_val "nikkei" (snd tr))
        (row_val "usdjpy" (snd tr))).

(** The row of the joined frame at one entry of the first series. *)
Definition joined_row (sf sn su : Series) (tv : Timestamp * float) : Timestamp * Row :=
  (fst tv, row4 (snd tv) (s_at sf (fst tv)) (s_at sn (fst tv)) (s_at su (fst tv))).

Definition is_row4 (tr : Timestamp * Row) : Prop :=
  exists a f n u, snd tr = row4 a f n u.

(** The rows [process_data] returns for four fetched series. *)
Definition aligned_rows (sa sf sn su : Series) : list (Timestamp * Row) :=
  filter (fun tr => row_complete (snd tr))
         (map convert_row (ffill_rows [] (sort_rows (map (joined_row sf sn su) sa)))).

(** The series behind each column of the joined frame. *)
Definition series_of (sa sf sn su : Series) (c : string) : Series :=
  if String.eqb c "acwi" then sa
  else if String.eqb c "fang" then sf
  else if String.eqb c "nikkei" then sn
  else su.

(** A table is aligned along the dates [idx]: its rows are the dates of
    [idx] at which the four converted forward fills along [idx] are all
    present, each row holding those four values. *)
Definition aligned_along (idx : list Timestamp) (sa sf sn su : Series)
  (out : DataFrame) : Prop :=
  (forall (t : Timestamp) (r : Row), In (t, r) (rows out) ->
     In t idx /\
     exists a f n u : float,
       filled idx sa t a /\ filled idx sf t f /\ filled idx sn t n /\ filled idx su t u /\
       r = row4 (a * u) (f * u) n u)
  /\ (forall (t : Timestamp) (a f n u : float),
        In t idx ->
        filled idx sa t a -> filled idx sf t f -> filled idx sn t n -> filled idx su t u ->
        row_complete (row4 (a * u) (f * u) n u) = true ->
        In (t, row4 (a * u) (f * u) n u) (rows out)).

(** The four series have an observation on every date of the first. *)
Definition gapless (sa sf sn su : Series) : Prop :=
  forall t, In t (s_index sa) ->
    observed sa t /\ observed sf t /\ observed sn t /\ observed su t.

(** Every entry of the series has the value [v]. *)
Definition constant_series (s : Series) (v : float) : Prop :=
  forall t x, In (t, x) s -> x = v.

(** The record [save_to_json] appends for a row of the four fields. *)
Definition row_record (tr : Timestamp * Row) : DataRecord :=
  mkRecord (strftime_ymd (fst tr))
           (JNumber (round2 (row_val "acwi" (snd tr))))
           (if notna (row_val "fang" (snd tr))
            then JNumber (round2 (row_val "fang" (snd tr)))
            else JNull)
           (JNumber (round2 (row_val "nikkei" (snd tr))))
           (JNumber (round2 (row_val "usdjpy" (snd tr)))).

(** The dictionary [save_to_json] builds from the table when the clock
    reads [now]. *)
Definition document_of (now : Timestamp) (df : DataFrame) : result OutputDocument :=
  first <- index_first df ;;
  last <- index_last df ;;
  recs <- records_of_rows (rows df) [] ;;
  Ok (mkDocument
        (mkMetadata (isoformat now) (strftime_ymd first) (strftime_ymd last)
                    (len df) DESCRIPTION)
        recs).

(** The directories after [os.makedirs(OUTPUT_DIR, exist_ok=True)]. *)
Definition with_output_dir (ds : list string) : list string :=
  if existsb (String.eqb OUTPUT_DIR) ds then ds else (ds ++ [OUTPUT_DIR])%list.

(** The claim C6 makes of a multi-level response: the column kept is a
    column of the field [Close]. *)
Definition keeps_close_field (idx : list Timestamp)
  (cols : list ((string * string) * list float)) : Prop :=
  exists ticker vals,
    In (("Close", ticker), vals) cols /\
    select_price (MultiLevel idx cols) = Ok (combine idx vals).

(** Rows, and entries of a series, in the order of their dates. *)
Definition le_row (x y : Timestamp * Row) : Prop := fst x <= fst y.
Definition lt_row (x y : Timestamp * Row) : Prop := fst x < fst y.
Definition lt_entry (x y : Timestamp * float) : Prop := fst x < fst y.

(** The world after the lines [ls] were printed. *)
Definition printed (ls : list Line) (w : World) : World :=
  mkWorld (clock w) (dirs w) (files w) (console w ++ ls).

(** The field [c] of a row is the number [v]. *)
Definition field_is (c : string) (r : Row) (v : float) : Prop :=
  row_find c r = Some v.

End Notions.
Import Notions.

(** ** Sample inputs *)

Module Samples.

Local Open Scope string_scope.

(** Midnight of a day of January 2024. *)
Definition jan (d : Z) : Timestamp := of_ymd 2024 1 d.

Definition constant (v : float) (days : list Z) : Series :=
  map (fun d => (jan d, v)) days.

(** Four series over 2024-01-01 .. 2024-01-05 without gaps. *)
Definition week : list Z := [1; 2; 3; 4; 5].
Definition acwi_week : Series := constant 100 week.
Definition fang_week : Series := constant 7 week.
Definition nikkei_week : Series := constant 30000 week.
Definition usdjpy_week : Series := constant 150 week.

(** The first series trades on the 1st and the 3rd; the exchange rate has
    a quote on the 1st and another on the 2nd. *)
Definition acwi_gap : Series := constant 100 [1; 3].
Definition fang_gap : Series := constant 7 [1; 2; 3].
Definition nikkei_gap : Series := constant 30000 [1; 2; 3].
Definition usdjpy_gap : Series := [(jan 1, 150%float); (jan 2, 151%float)].

(** The second series starts on the 4th, after the last date of the first. *)
Definition fang_late : Series := constant 7 [4; 5].

Definition world0 : World := mkWorld (of_ymd 2026 11 4) [] [] [].

(** A provider that fails on one ticker. *)
Definition provider3 : Provider :=
  fun ticker _ _ =>
    if String.eqb ticker "^NYFANG" then Raise (ProviderError "no data")
    else Ok (SingleLevel [jan 1; jan 2] [("Close", [1; 2]%float)]).

(** A provider whose second series starts after the first has ended. *)
Definition provider_late : Provider :=
  fun ticker _ _ =>
    if String.eqb ticker "^NYFANG"
    then Ok (SingleLevel [jan 4; jan 5] [("Close", [7; 7]%float)])
    else Ok (SingleLevel [jan 1; jan 2] [("Close", [1; 2]%float)]).

(** A multi-level response without a [Close] field. *)
Definition response_no_close : Response :=
  MultiLevel [jan 1; jan 2]
             [(("Open", "ACWI"), [1; 2]%float); (("High", "ACWI"), [3; 4]%float)].

(** A multi-level response with a [Close] field. *)
Definition response_multi : Response :=
  MultiLevel [jan 1; jan 2]
             [(("Open", "ACWI"), [1; 2]%float); (("Close", "ACWI"), [3; 4]%float)].


End Samples.
Import Samples.

(** ** Whole runs *)

Module Runs.

Local Open Scope string_scope.

(** The start of the window [fetch_data] asks for when the clock reads
    [now]. *)
Definition window_start (now : Timestamp) : Timestamp :=
  now - (YEARS_BACK * 365) * ns_per_day.

(** The series the loop of [fetch_data] stores for a ticker: none when
    the provider raises, returns no row, or no column can be selected. *)
Definition fetched (yf : Provider) (start stop : Timestamp) (ticker : string)
  : option Series :=
  match yf ticker start stop with
  | Ok df =>
      if (0 <? response_len df)%nat
      then match select_price df with
           | Ok s => Some s
           | Raise _ => None
           end
      else None
  | Raise _ => None
  end.

(** The fetched series of a list of symbols, in the order of the list. *)
Fixpoint fetched_dict (yf : Provider) (start stop : Timestamp)
  (tickers : list (string * string)) : Dict Series :=
  match tickers with
  | [] => []
  | (name, ticker) :: rest =>
      match fetched yf start stop ticker with
      | Some s => (name, s) :: fetched_dict yf start stop rest
      | None => fetched_dict yf start stop rest
      end
  end.

(** The column [c] of a frame, as [df[c]] returns it. *)
Definition column (c : string) (df : DataFrame) : Series :=
  map (fun tr => (fst tr, row_val c (snd tr))) (rows df).

(** A table of the four fields without a missing value. *)
Definition complete_table (df : DataFrame) : Prop :=
  columns df = FIELDS /\
  Forall is_row4 (rows df) /\
  Forall (fun tr => row_complete (snd tr) = true) (rows df).

(** The six lines [show_summary] prints for a column of a table whose
    first date is [t0] and whose last row is [(t1, r1)]. *)
Definition summary_block (df : DataFrame) (c : string) (t0 t1 : Timestamp) (r1 : Row)
  : list Line :=
  [LSummaryHead c;
   LSummaryPeriod (strftime_ymd t0) (strftime_ymd t1);
   LSummaryCount (len df);
   LSummaryMin (s_min (column c df));
   LSummaryMax (s_max (column c df));
   LSummaryLatest (row_val c r1)].

(** A computation that does nothing to the world but print. *)
Definition only_prints {A : Type} (m : M A) : Prop :=
  forall w, exists ls r, m w = (printed ls w, r).

(** The lines [main] prints before it fetches. *)
Definition BANNER : list Line := [LRule "=" 50; LTitle; LRule "=" 50].

(** The row of a date on which no series is forward-filled. *)
Definition raw_row (sa sf sn su : Series) (t : Timestamp) : Row :=
  row4 (s_at sa t * s_at su t) (s_at sf t * s_at su t) (s_at sn t) (s_at su t).

(** A provider with all four symbols over 2024-01-01 .. 2024-01-05. *)
Definition provider_week : Provider :=
  fun ticker _ _ =>
    let close :=
      if String.eqb ticker "ACWI" then 100%float
      else if String.eqb ticker "^NYFANG" then 7%float
      else if String.eqb ticker "^N225" then 30000%float
      else 150%float in
    Ok (SingleLevel (map jan week) [("Close", map (fun _ => close) week)]).

(** A multi-level response whose adjusted close comes before the close. *)
Definition response_adj_first : Response :=
  MultiLevel [jan 1; jan 2]
             [(("Adj Close", "ACWI"), [1; 2]%float); (("Close", "ACWI"), [3; 4]%float)].

(** The dictionary of a fetch that lost the exchange rate. *)
Definition three_series : Dict Series :=
  [("acwi", acwi_week); ("fang", fang_week); ("nikkei", nikkei_week)].

(** The first series of the week, stored in another order. *)
Definition acwi_shuffled : Series := constant 100 [3; 1; 5; 2; 4].

(** A table whose only row has no [fang] field. *)
Definition table_without_fang : DataFrame :=
  mkDF ["acwi"; "nikkei"; "usdjpy"]
       [(jan 1, [("acwi", 15000%float); ("nikkei", 30000%float); ("usdjpy", 150%float)])].

(** A world that already holds an output file and another file. *)
Definition world_with_files : World :=
  mkWorld (of_ymd 2026 11 4) ["data"]
          [("notes.json", mkDocument (mkMetadata "" "" "" 0 []) []);
           ("data/index_data.json", mkDocument (mkMetadata "" "" "" 0 []) [])]
          [].

End Runs.
Import Runs.

(** ** The first wording of two properties *)

Module Stated.

Local Open Scope string_scope.



(** Every row of the table holds the conversion of the forward fills
    along the dates [idx]. *)
Definition converted_along (idx : list Timestamp) (sa sf sn su : Series)
  (out : DataFrame) : Prop :=
  forall (t : Timestamp) (r : Row), In (t, r) (rows out) ->
    exists a f n u : float,
      filled idx sa t a /\ filled idx sf t f /\ filled idx sn t n /\ filled idx su t u /\
      field_is "acwi" r (a * u) /\ field_is "fang" r (f * u) /\
      field_is "nikkei" r n /\ field_is "usdjpy" r u.


End Stated.
Import Stated.

(** ** Lists, indexes and rows *)

Section ListFacts.

Context {A B C : Type}.

Lemma combine_map_same (f : A -> B) (g : A -> C) (l : list A) :
  combine (map f l) (map g l) = map (fun x => (f x, g x)) l.
Proof.
  induction l as [|x l IH]; simpl; [reflexivity|].
  now rewrite IH.
Qed.

End ListFacts.

Lemma index_equals_refl (l : list Timestamp) : index_equals l l = true.
Proof.
  induction l as [|x l IH]; simpl; [reflexivity|].
  now rewrite Z.eqb_refl, IH.
Qed.

Lemma index_equals_eq (a b : list Timestamp) : index_equals a b = true -> a = b.
Proof.
  revert b.
  induction a as [|x a IH]; intros [|y b]; simpl; try discriminate; auto.
  intros H. apply andb_prop in H as [Hxy Hab].
  apply Z.eqb_eq in Hxy. subst y. f_equal. now apply IH.
Qed.

Lemma mem_ts_In (t : Timestamp) (l : list Timestamp) :
  mem_ts t l = true <-> In t l.
Proof.
  induction l as [|k l IH]; simpl.
  - split; [discriminate | tauto].
  - rewrite orb_true_iff, Z.eqb_eq, IH. tauto.
Qed.

Lemma is_unique_NoDup (l : list Timestamp) : is_unique l = true <-> NoDup l.
Proof.
  induction l as [|k l IH]; simpl.
  - split; [constructor | reflexivity].
  - rewrite andb_true_iff, negb_true_iff, IH. split.
    + intros [Hk Hl]. constructor; [|exact Hl].
      intros Hin. apply mem_ts_In in Hin. congruence.
    + intros H. inversion H as [|? ? Hk Hl]; subst. split; [|exact Hl].
      destruct (mem_ts k l) eqn:E; [|reflexivity].
      apply mem_ts_In in E. contradiction.
Qed.

(** On a series with distinct labels, [s_at] reads back each entry. *)
Lemma s_find_In (s : Series) (t : Timestamp) (v : float) :
  NoDup (s_index s) -> In (t, v) s -> s_find t s = Some v.
Proof.
  induction s as [|[k x] s IH]; simpl; intros Hnd Hin; [contradiction|].
  inversion Hnd as [|? ? Hk Hs]; subst.
  destruct Hin as [Heq | Hin].
  - inversion Heq; subst. now rewrite Z.eqb_refl.
  - destruct (Z.eqb_spec k t) as [->|Hne].
    + exfalso. apply Hk. unfold s_index.
      change t with (fst (t, v)). now apply in_map.
    + now apply IH.
Qed.

Lemma s_at_In (s : Series) (t : Timestamp) (v : float) :
  NoDup (s_index s) -> In (t, v) s -> s_at s t = v.
Proof.
  intros Hnd Hin. unfold s_at. now rewrite (s_find_In s t v Hnd Hin).
Qed.

Lemma s_find_Some_In (s : Series) (t : Timestamp) (v : float) :
  s_find t s = Some v -> In (t, v) s.
Proof.
  induction s as [|[k x] s IH]; simpl; [discriminate|].
  destruct (Z.eqb_spec k t) as [->|Hne].
  - intros H. inversion H; subst. now left.
  - intros H. right. now apply IH.
Qed.

Lemma s_values_at (s : Series) :
  NoDup (s_index s) -> s_values s = map (s_at s) (s_index s).
Proof.
  intros Hnd. unfold s_values, s_index. rewrite map_map.
  apply map_ext_in. intros [t v] Hin. simpl.
  symmetry. now apply s_at_In.
Qed.

(** A value that is not missing at a label is an entry of the series. *)
Lemma s_at_notna_In (s : Series) (t : Timestamp) :
  is_nan (s_at s t) = false -> In (t, s_at s t) s.
Proof.
  unfold s_at. destruct (s_find t s) as [v|] eqn:E.
  - intros _. now apply s_find_Some_In.
  - discriminate.
Qed.

(** ** Column assignment *)

Lemma set_column_rows (df : DataFrame) (c : string) (g : Timestamp * Row -> float) :
  set_column df c (map g (rows df)) =
  mkDF (if has_column c df then columns df else columns df ++ [c])
       (map (fun tr => (fst tr, row_set c (g tr) (snd tr))) (rows df)).
Proof.
  unfold set_column. f_equal.
  rewrite <- (map_id (rows df)) at 1.
  rewrite combine_map_same, map_map. reflexivity.
Qed.

(** Assigning a series with distinct labels to a frame that has rows:
    every row takes the value the series has at its label. *)
Lemma setitem_reindex (df : DataFrame) (c : string) (s : Series) :
  rows df <> [] -> NoDup (s_index s) ->
  setitem df c s =
  Ok (mkDF (if has_column c df then columns df else columns df ++ [c])
           (map (fun tr => (fst tr, row_set c (s_at s (fst tr)) (snd tr))) (rows df))).
Proof.
  intros Hrows Hnd. unfold setitem.
  assert (Hdf : ensure_valid_index df s = df).
  { unfold ensure_valid_index. destruct (rows df); [contradiction|reflexivity]. }
  rewrite Hdf.
  assert (Hvals : reindex_for_setitem s df = Ok (map (s_at s) (df_index df))).
  { unfold reindex_for_setitem.
    destruct (index_equals (s_index s) (df_index df)) eqn:Heq; simpl.
    - apply index_equals_eq in Heq. rewrite <- Heq. now rewrite s_values_at.
    - destruct (df_index df) eqn:Hidx.
      + unfold df_index in Hidx. destruct (rows df); [contradiction|discriminate].
      + simpl. now rewrite (proj2 (is_unique_NoDup _) Hnd). }
  rewrite Hvals. simpl. unfold df_index. rewrite map_map.
  now rewrite (set_column_rows df c (fun tr => s_at s (fst tr))).
Qed.

(** Assigning a series computed from the frame itself, row by row. *)
Lemma setitem_aligned (cols : list string) (R : list (Timestamp * Row)) (c : string)
  (g : Timestamp * Row -> float) :
  setitem (mkDF cols R) c (map (fun tr => (fst tr, g tr)) R) =
  Ok (mkDF (if existsb (String.eqb c) cols then cols else cols ++ [c])
           (map (fun tr => (fst tr, row_set c (g tr) (snd tr))) R)).
Proof.
  unfold setitem.
  assert (Hdf : ensure_valid_index (mkDF cols R) (map (fun tr => (fst tr, g tr)) R)
                = mkDF cols R).
  { unfold ensure_valid_index. cbn [rows]. destruct R; reflexivity. }
  rewrite Hdf. unfold reindex_for_setitem, s_index, s_values, df_index.
  cbn [rows]. rewrite !map_map. cbn [fst snd].
  rewrite index_equals_refl. cbn [orb bind].
  apply f_equal. apply (set_column_rows (mkDF cols R) c g).
Qed.

(** The first assignment to [pd.DataFrame()]: the frame takes the index
    and the values of the series. *)
Lemma setitem_empty (c : string) (s : Series) :
  s <> [] ->
  setitem empty_frame c s = Ok (mkDF [c] (map (fun tv => (fst tv, [(c, snd tv)])) s)).
Proof.
  intros Hs. unfold setitem, ensure_valid_index. simpl.
  destruct s as [|x s]; [contradiction|].
  unfold reindex_for_setitem, df_index. cbn [rows columns].
  rewrite map_map. cbn [fst]. rewrite map_id.
  rewrite index_equals_refl. cbn [orb bind].
  unfold set_column, has_column. cbn [rows columns existsb app].
  f_equal. f_equal. unfold s_index, s_values.
  rewrite map_map, combine_map_same, map_map. reflexivity.
Qed.

Lemma s_mul_aligned {X : Type} (t : X -> Timestamp) (g h : X -> float) (l : list X) :
  s_mul (map (fun x => (t x, g x)) l) (map (fun x => (t x, h x)) l) =
  map (fun x => (t x, (g x * h x)%float)) l.
Proof.
  unfold s_mul. rewrite combine_map_same, map_map. reflexivity.
Qed.

(** ** Sorting the index *)

Lemma insert_row_perm (x : Timestamp * Row) (l : list (Timestamp * Row)) :
  Permutation (insert_row x l) (x :: l).
Proof.
  induction l as [|y l IH]; simpl; [reflexivity|].
  destruct (fst x <=? fst y); [reflexivity|].
  rewrite IH. apply perm_swap.
Qed.

Lemma sort_rows_perm (l : list (Timestamp * Row)) : Permutation (sort_rows l) l.
Proof.
  induction l as [|x l IH]; simpl; [reflexivity|].
  rewrite insert_row_perm. now constructor.
Qed.

Lemma insert_row_sorted (x : Timestamp * Row) (l : list (Timestamp * Row)) :
  StronglySorted le_row l -> StronglySorted le_row (insert_row x l).
Proof.
  induction 1 as [|y l Hl IH Hy]; simpl.
  - constructor; constructor.
  - destruct (Z.leb_spec (fst x) (fst y)) as [Hxy | Hxy].
    + constructor; [now constructor|].
      constructor; [exact Hxy|].
      eapply Forall_impl; [|exact Hy].
      unfold le_row. intros z Hz. lia.
    + constructor; [exact IH|].
      eapply Permutation_Forall; [symmetry; apply insert_row_perm|].
      constructor; [unfold le_row; lia | exact Hy].
Qed.

Lemma sort_rows_sorted (l : list (Timestamp * Row)) : StronglySorted le_row (sort_rows l).
Proof.
  induction l as [|x l IH]; simpl; [constructor|].
  now apply insert_row_sorted.
Qed.

Lemma sorted_strict (l : list (Timestamp * Row)) :
  StronglySorted le_row l -> NoDup (map fst l) -> StronglySorted lt_row l.
Proof.
  induction 1 as [|x l Hl IH Hx]; simpl; intros Hnd; [constructor|].
  inversion Hnd as [|? ? Hnin Hnd']; subst.
  constructor; [now apply IH|].
  rewrite Forall_forall in *. intros y Hy.
  specialize (Hx y Hy). unfold le_row in Hx. unfold lt_row.
  assert (fst x <> fst y) by (intros E; apply Hnin; rewrite E; now apply in_map).
  lia.
Qed.

(** A frame whose index is already ascending is returned as it is. *)
Lemma sort_rows_id (l : list (Timestamp * Row)) :
  StronglySorted le_row l -> sort_rows l = l.
Proof.
  induction 1 as [|x l Hl IH Hx]; simpl; [reflexivity|].
  rewrite IH. destruct l as [|y l]; simpl; [reflexivity|].
  inversion Hx as [|? ? Hxy _]; subst. unfold le_row in Hxy.
  destruct (Z.leb_spec (fst x) (fst y)); [reflexivity | lia].
Qed.

(** ** The joined frame *)

Section Join.

Local Open Scope string_scope.

Variables sa sf sn su : Series.
Hypothesis Ha : sa <> [].
Hypothesis Hf : NoDup (s_index sf).
Hypothesis Hn : NoDup (s_index sn).
Hypothesis Hu : NoDup (s_index su).

(** The loop of [process_data] keeps the dates of the first series and
    looks the other three up at those dates. *)
Lemma join_loop_raw_data :
  join_loop (raw_data sa sf sn su) empty_frame =
  Ok (mkDF FIELDS (map (joined_row sf sn su) sa)).
Proof.
  unfold raw_data. cbn [join_loop].
  rewrite (setitem_empty "acwi" sa Ha). cbn [bind].
  rewrite setitem_reindex; [|destruct sa; [contradiction|discriminate]|exact Hf].
  cbn [bind rows columns]. rewrite map_map.
  rewrite setitem_reindex; [|destruct sa; [contradiction|discriminate]|exact Hn].
  cbn [bind rows columns]. rewrite map_map.
  rewrite setitem_reindex; [|destruct sa; [contradiction|discriminate]|exact Hu].
  cbn [bind rows columns]. rewrite map_map.
  reflexivity.
Qed.

End Join.

(** ** Forward fill, conversion and the dropped rows *)

Section Tail.

Local Open Scope string_scope.

Lemma is_row4_joined (sf sn su : Series) (sa : Series) :
  Forall is_row4 (map (joined_row sf sn su) sa).
Proof.
  apply Forall_forall. intros tr Hin.
  apply in_map_iff in Hin as [[t v] [<- _]].
  unfold is_row4, joined_row. simpl. eauto.
Qed.

Lemma fill_row_row4 (last : Row) (a f n u : float) :
  fill_row last (row4 a f n u) =
  row4 (if is_nan a then row_val "acwi" last else a)
       (if is_nan f then row_val "fang" last else f)
       (if is_nan n then row_val "nikkei" last else n)
       (if is_nan u then row_val "usdjpy" last else u).
Proof. reflexivity. Qed.

Lemma ffill_rows_row4 (rs : list (Timestamp * Row)) (last : Row) :
  Forall is_row4 rs -> Forall is_row4 (ffill_rows last rs).
Proof.
  intros H. revert last.
  induction H as [|[t r] rs [a [f [n [u Hr]]]] _ IH]; intros last; simpl.
  - constructor.
  - simpl in Hr. subst r. constructor; [|apply IH].
    unfold is_row4. rewrite fill_row_row4. simpl. eauto.
Qed.

Lemma ffill_rows_index (rs : list (Timestamp * Row)) (last : Row) :
  map fst (ffill_rows last rs) = map fst rs.
Proof.
  revert last. induction rs as [|[t r] rs IH]; intros last; simpl; [reflexivity|].
  now rewrite IH.
Qed.

(** Each of the four columns is filled on its own. *)
Lemma ffill_rows_scan (c : string) (rs : list (Timestamp * Row)) (last : Row) :
  In c FIELDS -> Forall is_row4 rs ->
  map (fun tr => (fst tr, row_val c (snd tr))) (ffill_rows last rs) =
  scan (row_val c last) (map (fun tr => (fst tr, row_val c (snd tr))) rs).
Proof.
  intros Hc H. revert last.
  induction H as [|[t r] rs [a [f [n [u Hr]]]] _ IH]; intros last; [reflexivity|].
  simpl in Hr. subst r. cbn [ffill_rows map scan fst snd].
  rewrite IH. rewrite fill_row_row4.
  unfold FIELDS in Hc. simpl in Hc.
  destruct Hc as [<-|[<-|[<-|[<-|[]]]]]; reflexivity.
Qed.

(** From the joined frame on, [process_data] sorts the rows, fills down
    each column, converts each row and drops the incomplete ones. *)
Lemma process_table_joined (data : Dict Series) (J : list (Timestamp * Row)) :
  join_loop data empty_frame = Ok (mkDF FIELDS J) ->
  Forall is_row4 J ->
  process_table data =
  Ok (mkDF FIELDS
        (filter (fun tr => row_complete (snd tr))
                (map convert_row (ffill_rows [] (sort_rows J))))).
Proof.
  intros HJ Hshape. unfold process_table. rewrite HJ. cbn [bind].
  unfold sort_index, ffill. cbn [columns rows].
  set (F := ffill_rows [] (sort_rows J)).
  assert (HF : Forall is_row4 F).
  { apply ffill_rows_row4.
    eapply Permutation_Forall; [symmetry; apply sort_rows_perm | exact Hshape]. }
  unfold getitem at 1 2. cbn -[row_val row_set s_mul setitem].
  rewrite (s_mul_aligned fst), setitem_aligned.
  cbn [bind]. unfold getitem at 1 2. cbn -[row_val row_set s_mul setitem].
  rewrite (s_mul_aligned fst), setitem_aligned.
  cbn [bind]. unfold getitem at 1. cbn -[row_val row_set s_mul setitem].
  rewrite setitem_aligned.
  cbn -[row_val row_set row_complete].
  f_equal. unfold dropna. cbn [columns rows]. f_equal. f_equal.
  rewrite !map_map.
  apply map_ext_in. intros [t r] Hin.
  rewrite Forall_forall in HF. destruct (HF _ Hin) as [a [f [n [u Hr]]]].
  simpl in Hr. subst r. reflexivity.
Qed.

End Tail.

(** ** Forward fill along an ascending index *)

Lemma scan_index (d : float) (s : Series) : s_index (scan d s) = s_index s.
Proof.
  revert d. induction s as [|[t v] s IH]; intros d; simpl; [reflexivity|].
  now rewrite IH.
Qed.

(** Down a column whose labels ascend, the filled value at [t] is the last
    value at or above [t] that is not missing, and the value [d] carried
    in from above when there is none. *)
Lemma scan_spec (s : Series) :
  StronglySorted lt_entry s ->
  forall d t w, In (t, w) (scan d s) ->
    (exists t', In (t', w) s /\ t' <= t /\ is_nan w = false /\
                forall t'' v'', In (t'', v'') s -> t'' <= t -> is_nan v'' = false -> t'' <= t')
    \/ (w = d /\ forall t' v', In (t', v') s -> t' <= t -> is_nan v' = true).
Proof.
  induction 1 as [|[t0 v0] s Hs IH Hall]; intros d t w Hin; [contradiction|].
  rewrite Forall_forall in Hall. unfold lt_entry in Hall. simpl in Hall.
  simpl in Hin. destruct Hin as [Heq | Hin].
  - inversion Heq; subst t w; clear Heq.
    destruct (is_nan v0) eqn:Hv0.
    + right. split; [reflexivity|].
      intros t' v' [Heq | Hin'] Hle.
      * inversion Heq; subst. exact Hv0.
      * specialize (Hall _ Hin'). simpl in Hall. lia.
    + left. exists t0. repeat split.
      * now left.
      * lia.
      * exact Hv0.
      * intros t'' v'' _ Hle _. exact Hle.
  - assert (Ht : t0 < t).
    { assert (Hidx : In t (s_index (scan (if is_nan v0 then d else v0) s))).
      { unfold s_index. change t with (fst (t, w)). now apply in_map. }
      rewrite scan_index in Hidx. unfold s_index in Hidx.
      apply in_map_iff in Hidx as [y [Hy Hyin]].
      specialize (Hall _ Hyin). lia. }
    destruct (IH _ _ _ Hin) as [[t' [Hin' [Hle [Hw Hmax]]]] | [Hw Hnone]].
    + left. exists t'. repeat split; auto.
      * now right.
      * intros t'' v'' [Heq | Hin''] Hle'' Hv''.
        -- inversion Heq; subst. specialize (Hall _ Hin'). simpl in Hall. lia.
        -- eapply Hmax; eauto.
    + destruct (is_nan v0) eqn:Hv0.
      * right. split; [exact Hw|].
        intros t' v' [Heq | Hin'] Hle.
        -- inversion Heq; subst. exact Hv0.
        -- eapply Hnone; eauto.
      * left. exists t0. subst w. repeat split.
        -- now left.
        -- lia.
        -- exact Hv0.
        -- intros t'' v'' [Heq | Hin''] Hle'' Hv''.
           ++ inversion Heq; subst. lia.
           ++ rewrite (Hnone _ _ Hin'' Hle'') in Hv''. discriminate.
Qed.

(** The forward fill of a series at a date is unique. *)
Lemma filled_unique (idx : list Timestamp) (s : Series) (t : Timestamp) (v w : float) :
  filled idx s t v -> filled idx s t w -> v = w.
Proof.
  intros [[t1 [Hin1 [Hle1 [Hobs1 [Hv Hmax1]]]]] | [Hv Hnone1]]
         [[t2 [Hin2 [Hle2 [Hobs2 [Hw Hmax2]]]]] | [Hw Hnone2]].
  - assert (t1 = t2).
    { specialize (Hmax1 _ Hin2 Hle2 Hobs2). specialize (Hmax2 _ Hin1 Hle1 Hobs1). lia. }
    congruence.
  - exfalso. eapply Hnone2; eauto.
  - exfalso. eapply Hnone1; eauto.
  - congruence.
Qed.

Lemma sorted_index_filter (p : Timestamp * Row -> bool) (l : list (Timestamp * Row)) :
  StronglySorted Z.lt (map fst l) -> StronglySorted Z.lt (map fst (filter p l)).
Proof.
  induction l as [|x l IH]; simpl; intros H; [constructor|].
  inversion H as [|? ? Hl Hx]; subst.
  destruct (p x); simpl; [|now apply IH].
  constructor; [now apply IH|].
  rewrite Forall_forall in *. intros y Hy. apply Hx.
  apply in_map_iff in Hy as [z [<- Hz]].
  apply filter_In in Hz as [Hz _]. now apply in_map.
Qed.

Lemma sorted_rows_index (l : list (Timestamp * Row)) :
  StronglySorted lt_row l -> StronglySorted Z.lt (map fst l).
Proof.
  induction 1 as [|x l Hl IH Hx]; simpl; constructor; [exact IH|].
  rewrite Forall_forall in *. intros y Hy.
  apply in_map_iff in Hy as [z [<- Hz]]. now apply Hx.
Qed.

Lemma sorted_column (c : string) (l : list (Timestamp * Row)) :
  StronglySorted lt_row l ->
  StronglySorted lt_entry (map (fun tr => (fst tr, row_val c (snd tr))) l).
Proof.
  induction 1 as [|x l Hl IH Hx]; simpl; constructor; [exact IH|].
  rewrite Forall_forall in *. intros y Hy.
  apply in_map_iff in Hy as [z [<- Hz]]. unfold lt_entry. simpl. now apply Hx.
Qed.

(** ** The table of [process_data] *)

Section Aligner.

Local Open Scope string_scope.

Variables sa sf sn su : Series.
Hypothesis Va : valid_series sa.
Hypothesis Vf : valid_series sf.
Hypothesis Vn : valid_series sn.
Hypothesis Vu : valid_series su.

Let idx := s_index sa.
Let J := map (joined_row sf sn su) sa.
Let S := sort_rows J.
Let F := ffill_rows [] S.

Lemma process_table_raw_data :
  process_table (raw_data sa sf sn su) = Ok (mkDF FIELDS (aligned_rows sa sf sn su)).
Proof.
  apply process_table_joined.
  - apply join_loop_raw_data; [apply Va | apply Vf | apply Vn | apply Vu].
  - apply is_row4_joined.
Qed.

Lemma joined_index : map fst J = idx.
Proof.
  unfold J, idx, s_index. rewrite map_map. reflexivity.
Qed.

Lemma sorted_index_perm : Permutation (map fst S) idx.
Proof.
  rewrite <- joined_index. apply Permutation_map. apply sort_rows_perm.
Qed.

Lemma sorted_In (tr : Timestamp * Row) : In tr S <-> In tr J.
Proof.
  split; apply Permutation_in; [|symmetry]; apply sort_rows_perm.
Qed.

Lemma sorted_strictly : StronglySorted lt_row S.
Proof.
  apply sorted_strict; [apply sort_rows_sorted|].
  eapply Permutation_NoDup; [symmetry; apply sorted_index_perm|].
  apply Va.
Qed.

Lemma sorted_row4 : Forall is_row4 S.
Proof.
  eapply Permutation_Forall; [symmetry; apply sort_rows_perm|].
  apply is_row4_joined.
Qed.

(** Each column of the joined frame holds its series, looked up at the
    dates of the first series. *)
Lemma joined_column (c : string) (tr : Timestamp * Row) :
  In c FIELDS -> In tr S ->
  row_val c (snd tr) = s_at (series_of sa sf sn su c) (fst tr).
Proof.
  intros Hc Hin. apply sorted_In in Hin.
  apply in_map_iff in Hin as [[t v] [<- Hin]].
  unfold FIELDS in Hc. simpl in Hc.
  destruct Hc as [<-|[<-|[<-|[<-|[]]]]]; try reflexivity.
  cbn. symmetry. apply s_at_In; [apply Va | exact Hin].
Qed.

Lemma In_sorted_index (t : Timestamp) :
  In t idx <-> exists r, In (t, r) S.
Proof.
  split.
  - intros Hin.
    apply (Permutation_in _ (Permutation_sym sorted_index_perm)) in Hin.
    apply in_map_iff in Hin as [[t' r] [Heq Hin]]. simpl in Heq. subst t'.
    now exists r.
  - intros [r Hin]. apply (Permutation_in _ sorted_index_perm).
    change t with (fst (t, r)). now apply in_map.
Qed.

(** After [ffill], the value in column [c] at date [t] is the forward fill
    of the series of [c] along the dates of the first series. *)
Lemma ffill_filled (c : string) (t : Timestamp) (rf : Row) :
  In c FIELDS -> In (t, rf) F ->
  filled idx (series_of sa sf sn su c) t (row_val c rf).
Proof.
  intros Hc Hin.
  set (s := series_of sa sf sn su c).
  set (P := map (fun tr : Timestamp * Row => (fst tr, row_val c (snd tr))) S).
  assert (HP : StronglySorted lt_entry P).
  { apply sorted_column, sorted_strictly. }
  assert (HinP : forall t' v', In (t', v') P <-> In t' idx /\ v' = s_at s t').
  { intros t' v'. unfold P. rewrite in_map_iff. split.
    - intros [tr [Heq Htr]]. inversion Heq; subst. split.
      + apply In_sorted_index. exists (snd tr). now destruct tr.
      + now apply joined_column.
    - intros [Hidx ->]. apply In_sorted_index in Hidx as [r Hr].
      exists (t', r). split; [|exact Hr].
      simpl. f_equal. apply (joined_column c (t', r) Hc Hr). }
  assert (Hscan : In (t, row_val c rf) (scan nan P)).
  { assert (Hnan : row_val c [] = nan) by reflexivity.
    rewrite <- Hnan. unfold P.
    rewrite <- (ffill_rows_scan c S [] Hc sorted_row4).
    apply in_map_iff. exists (t, rf). split; [reflexivity | exact Hin]. }
  destruct (scan_spec P HP _ _ _ Hscan) as [[t' [Hin' [Hle [Hw Hmax]]]] | [Hw Hnone]].
  - left. apply HinP in Hin' as [Hidx Hval]. exists t'.
    unfold observed. repeat split; auto.
    + now rewrite <- Hval.
    + intros t'' Hidx'' Hle'' Hobs. eapply (Hmax t'' (s_at s t'')); auto.
      apply HinP. now split.
  - right. split; [exact Hw|].
    intros t' Hidx' Hle' Hobs. unfold observed in Hobs.
    rewrite (Hnone t' (s_at s t')) in Hobs; [discriminate| |exact Hle'].
    apply HinP. now split.
Qed.

Lemma ffill_index : map fst F = map fst S.
Proof. apply ffill_rows_index. Qed.

Lemma ffill_row4 : Forall is_row4 F.
Proof. apply ffill_rows_row4, sorted_row4. Qed.

(** Every row of the table: its date is a date of the first series, no
    field is missing, and the fields are the converted forward fills. *)
Lemma aligned_rows_sound (t : Timestamp) (r : Row) :
  In (t, r) (aligned_rows sa sf sn su) ->
  In t idx /\ row_complete r = true /\
  exists a f n u,
    filled idx sa t a /\ filled idx sf t f /\ filled idx sn t n /\ filled idx su t u /\
    r = row4 (a * u) (f * u) n u.
Proof.
  intros Hin. unfold aligned_rows in Hin. fold J S F in Hin.
  apply filter_In in Hin as [Hin Hc]. simpl in Hc.
  apply in_map_iff in Hin as [[t' rf] [Heq Hin]].
  unfold convert_row in Heq. simpl in Heq. inversion Heq; subst t'. clear Heq.
  split; [|split].
  - apply In_sorted_index.
    assert (Ht : In t (map fst S)).
    { rewrite <- ffill_index. change t with (fst (t, rf)). now apply in_map. }
    apply in_map_iff in Ht as [[t' r'] [Heq Ht]]. simpl in Heq. subst t'. now exists r'.
  - subst r. exact Hc.
  - exists (row_val "acwi" rf), (row_val "fang" rf), (row_val "nikkei" rf),
           (row_val "usdjpy" rf).
    repeat split.
    + apply (ffill_filled "acwi" t rf); [simpl; tauto | exact Hin].
    + apply (ffill_filled "fang" t rf); [simpl; tauto | exact Hin].
    + apply (ffill_filled "nikkei" t rf); [simpl; tauto | exact Hin].
    + apply (ffill_filled "usdjpy" t rf); [simpl; tauto | exact Hin].
Qed.

(** Every date of the first series whose converted forward fills are all
    present is a row of the table. *)
Lemma aligned_rows_complete (t : Timestamp) (a f n u : float) :
  In t idx ->
  filled idx sa t a -> filled idx sf t f -> filled idx sn t n -> filled idx su t u ->
  row_complete (row4 (a * u) (f * u) n u) = true ->
  In (t, row4 (a * u) (f * u) n u) (aligned_rows sa sf sn su).
Proof.
  intros Hidx Ha Hf Hn Hu Hc.
  assert (Ht : In t (map fst F)).
  { rewrite ffill_index. apply In_sorted_index in Hidx as [r Hr].
    change t with (fst (t, r)). now apply in_map. }
  apply in_map_iff in Ht as [[t' rf] [Heq Hin]]. simpl in Heq. subst t'.
  unfold aligned_rows. fold J S F. apply filter_In. split; [|exact Hc].
  apply in_map_iff. exists (t, rf). split; [|exact Hin].
  unfold convert_row. simpl.
  rewrite (filled_unique idx sa t _ _ (ffill_filled "acwi" t rf ltac:(simpl; tauto) Hin) Ha).
  rewrite (filled_unique idx sf t _ _ (ffill_filled "fang" t rf ltac:(simpl; tauto) Hin) Hf).
  rewrite (filled_unique idx sn t _ _ (ffill_filled "nikkei" t rf ltac:(simpl; tauto) Hin) Hn).
  rewrite (filled_unique idx su t _ _ (ffill_filled "usdjpy" t rf ltac:(simpl; tauto) Hin) Hu).
  reflexivity.
Qed.

Lemma aligned_rows_sorted :
  StronglySorted Z.lt (map fst (aligned_rows sa sf sn su)).
Proof.
  unfold aligned_rows. fold J S F. apply sorted_index_filter.
  rewrite map_map. unfold convert_row. cbn [fst].
  change (StronglySorted Z.lt (map fst F)). rewrite ffill_index.
  apply sorted_rows_index, sorted_strictly.
Qed.

End Aligner.

(** ** Missing values and multiplication *)

Lemma is_nan_Prim2SF (x : float) :
  is_nan x = true <-> FloatOps.Prim2SF x = SpecFloat.S754_nan.
Proof.
  unfold FloatOps.Prim2SF. destruct (is_nan x); split; try reflexivity; try discriminate.
  destruct (is_zero x); [discriminate|].
  destruct (is_infinity x); [discriminate|].
  destruct (FloatOps.Z.frexp x) as [r e].
  destruct (SpecFloat.shr_fexp _ _ _ _ _) as [shr e'].
  destruct (SpecFloat.shr_m shr); discriminate.
Qed.

(** A product that is not missing has no missing factor. *)
Lemma mul_notna (x y : float) :
  is_nan (x * y) = false -> is_nan x = false /\ is_nan y = false.
Proof.
  intros H.
  assert (Hxy : FloatOps.Prim2SF (x * y) <> SpecFloat.S754_nan).
  { intros E. apply is_nan_Prim2SF in E. congruence. }
  rewrite FloatAxioms.mul_spec in Hxy. unfold FloatAxioms.SF64mul in Hxy.
  split.
  - destruct (is_nan x) eqn:Ex; [|reflexivity].
    apply is_nan_Prim2SF in Ex. rewrite Ex in Hxy. now elim Hxy.
  - destruct (is_nan y) eqn:Ey; [|reflexivity].
    apply is_nan_Prim2SF in Ey. rewrite Ey in Hxy.
    destruct (FloatOps.Prim2SF x); now elim Hxy.
Qed.

Lemma row4_complete (a f n u : float) :
  row_complete (row4 a f n u) = true <->
  is_nan a = false /\ is_nan f = false /\ is_nan n = false /\ is_nan u = false.
Proof.
  unfold row_complete, row4, notna. simpl.
  rewrite !andb_true_iff, !negb_true_iff. tauto.
Qed.

(** ** Running the stages *)

Lemma print_printed (l : Line) (w : World) : print l w = (printed [l] w, Ok tt).
Proof. reflexivity. Qed.

Lemma printed_app (l1 l2 : list Line) (w : World) :
  printed l2 (printed l1 w) = printed (l1 ++ l2) w.
Proof. unfold printed. simpl. now rewrite <- app_assoc. Qed.

Lemma process_data_run (data : Dict Series) (out : DataFrame) (w : World) :
  process_table data = Ok out ->
  process_data data w =
  (printed [LRule "-" 50; LProcessing; LProcessed (len out)] w, Ok out).
Proof.
  intros H. unfold process_data, bindM, lift, ret. rewrite !print_printed.
  rewrite H. rewrite !print_printed, !printed_app. reflexivity.
Qed.

(** ** The aligner and converter *)

Section AlignerClaims.

Local Open Scope string_scope.

Variables sa sf sn su : Series.
Hypothesis Va : valid_series sa.
Hypothesis Vf : valid_series sf.
Hypothesis Vn : valid_series sn.
Hypothesis Vu : valid_series su.

(** The table [process_data] returns is aligned along the dates of the
    first series. *)
Lemma process_table_aligned :
  aligned_along (s_index sa) sa sf sn su (mkDF FIELDS (aligned_rows sa sf sn su)).
Proof.
  split.
  - intros t r Hin.
    destruct (aligned_rows_sound sa sf sn su Va t r Hin) as [Hidx [_ H]].
    now split.
  - intros t a f n u. now apply aligned_rows_complete.
Qed.

(** In a row of the table every forward fill is an observation. *)
Lemma aligned_rows_observed (t : Timestamp) (r : Row) :
  In (t, r) (aligned_rows sa sf sn su) ->
  forall c, In c FIELDS ->
  exists t', In t' (s_index sa) /\ t' <= t /\ observed (series_of sa sf sn su c) t'.
Proof.
  intros Hin c Hc.
  destruct (aligned_rows_sound sa sf sn su Va t r Hin)
    as [_ [Hcomp [a [f [n [u [Ha [Hf [Hn [Hu Hr]]]]]]]]]].
  subst r. apply row4_complete in Hcomp as [Hau [Hfu [Hn' Hu']]].
  apply mul_notna in Hau as [Ha' _]. apply mul_notna in Hfu as [Hf' _].
  assert (Hfill : exists v, filled (s_index sa) (series_of sa sf sn su c) t v
                            /\ is_nan v = false).
  { unfold FIELDS in Hc. simpl in Hc.
    destruct Hc as [<-|[<-|[<-|[<-|[]]]]]; cbn; eauto. }
  destruct Hfill as [v [[[t' [Hin' [Hle [Hobs _]]]] | [Hv _]] Hnan]].
  - now exists t'.
  - subst v. discriminate.
Qed.

End AlignerClaims.

Lemma sorted_NoDup (l : list Timestamp) : StronglySorted Z.lt l -> NoDup l.
Proof.
  induction 1 as [|x l Hl IH Hx]; constructor; [|exact IH].
  intros Hin. rewrite Forall_forall in Hx. specialize (Hx x Hin). lia.
Qed.

(** At a date of the index where the series has an observation, the
    forward fill is that observation. *)
Lemma filled_observed (idx : list Timestamp) (s : Series) (t : Timestamp) :
  In t idx -> observed s t -> filled idx s t (s_at s t).
Proof.
  intros Hin Hobs. left. exists t. repeat split; auto; lia.
Qed.

Lemma constant_fill (idx : list Timestamp) (s : Series) (t : Timestamp) (v x : float) :
  constant_series s v -> filled idx s t x -> x = v \/ x = nan.
Proof.
  intros Hc [[t' [_ [_ [Hobs [Hx _]]]]] | [Hx _]]; [left | now right].
  subst x. apply (Hc t'). now apply s_at_notna_In.
Qed.

Lemma valid_sample (s : Series) :
  s <> [] -> is_unique (s_index s) = true -> valid_series s.
Proof.
  intros Hs Hu. split; [exact Hs | now apply is_unique_NoDup].
Qed.

(** * The properties *)

Section AlignerProperties.

Local Open Scope string_scope.

Variables sa sf sn su : Series.
Variable w : World.
Hypothesis Va : valid_series sa.
Hypothesis Vf : valid_series sf.
Hypothesis Vn : valid_series sn.
Hypothesis Vu : valid_series su.

(** C10.  The aligner never introduces dates: on four valid raw series
    [process_data] returns a table, and every date of that table is a
    date of one of the four input series. *)
Theorem process_data_no_new_dates :
  exists w' out,
    process_data (raw_data sa sf sn su) w = (w', Ok out) /\
    forall t, In t (df_index out) -> In t (union_index sa sf sn su).
Proof.
  eexists. eexists. split.
  - apply process_data_run. now apply process_table_raw_data.
  - intros t Hin. unfold df_index in Hin. cbn [rows] in Hin.
    apply in_map_iff in Hin as [[t' r] [Heq Hin]]. simpl in Heq. subst t'.
    apply (aligned_rows_sound sa sf sn su Va) in Hin as [Hidx _].
    unfold union_index. apply in_or_app. now left.
Qed.

(** C5.  On four valid raw series the table [process_data] returns has a
    value that is not missing in each of the four fields of every row, and
    its dates are strictly increasing, so no date occurs twice. *)
Theorem process_data_invariant :
  exists w' out,
    process_data (raw_data sa sf sn su) w = (w', Ok out) /\
    (forall t r, In (t, r) (rows out) ->
       forall c, In c FIELDS -> exists v, field_is c r v /\ is_nan v = false) /\
    StronglySorted Z.lt (df_index out) /\
    NoDup (df_index out).
Proof.
  eexists. eexists. split; [|split; [|split]].
  - apply process_data_run. now apply process_table_raw_data.
  - cbn [rows]. intros t r Hin c Hc.
    apply (aligned_rows_sound sa sf sn su Va) in Hin
      as [_ [Hcomp [a [f [n [u [_ [_ [_ [_ Hr]]]]]]]]]].
    subst r. apply row4_complete in Hcomp as [Hau [Hfu [Hn Hu]]].
    unfold FIELDS in Hc. simpl in Hc. unfold field_is.
    destruct Hc as [<-|[<-|[<-|[<-|[]]]]]; cbn; eauto.
  - apply (aligned_rows_sorted sa sf sn su Va).
  - apply sorted_NoDup. apply (aligned_rows_sorted sa sf sn su Va).
Qed.

(** C4 (amended).  On four valid raw series, every row of the table
    [process_data] returns holds, for its date, the acwi value times the
    usdjpy value, the fang value times the usdjpy value, the nikkei value
    unchanged and the usdjpy value, each value forward-filled along the
    dates of the first series (acwi), not along the union of the dates.
    With acwi constantly 100.0 and usdjpy constantly 150.0 the acwi field
    is 15000.0 in every row, and when the series have no gaps (and fang
    times 150.0 is a number) every date of the series is a row of the
    table. *)
Theorem process_data_conversion :
  exists w' out,
    process_data (raw_data sa sf sn su) w = (w', Ok out) /\
    (forall t r, In (t, r) (rows out) ->
       exists a f n u,
         filled (s_index sa) sa t a /\ filled (s_index sa) sf t f /\
         filled (s_index sa) sn t n /\ filled (s_index sa) su t u /\
         field_is "acwi" r (a * u) /\ field_is "fang" r (f * u) /\
         field_is "nikkei" r n /\ field_is "usdjpy" r u) /\
    (constant_series sa 100 -> constant_series su 150 ->
       (forall t r, In (t, r) (rows out) -> field_is "acwi" r 15000) /\
       (gapless sa sf sn su ->
        (forall t, In t (s_index sa) -> is_nan (s_at sf t * 150) = false) ->
        forall t, In t (s_index sa) -> In t (df_index out))).
Proof.
  eexists. eexists. split; [|split].
  - apply process_data_run. now apply process_table_raw_data.
  - cbn [rows]. intros t r Hin.
    apply (aligned_rows_sound sa sf sn su Va) in Hin
      as [_ [_ [a [f [n [u [Ha [Hf [Hn [Hu Hr]]]]]]]]]].
    exists a, f, n, u. subst r. unfold field_is. cbn. tauto.
  - intros Ca Cu. cbn [rows]. split.
    + intros t r Hin.
      apply (aligned_rows_sound sa sf sn su Va) in Hin
        as [_ [Hcomp [a [f [n [u [Ha [_ [_ [Hu Hr]]]]]]]]]].
      subst r. apply row4_complete in Hcomp as [Hau _].
      unfold field_is. cbn.
      destruct (constant_fill _ _ _ _ _ Ca Ha) as [-> | ->];
        destruct (constant_fill _ _ _ _ _ Cu Hu) as [-> | ->];
        try (vm_compute in Hau; discriminate).
      reflexivity.
    + intros Hgap Hprod t Hin.
      destruct (Hgap t Hin) as [Oa [Of [On Ou]]].
      assert (Ea : s_at sa t = 100%float) by (apply (Ca t); now apply s_at_notna_In).
      assert (Eu : s_at su t = 150%float) by (apply (Cu t); now apply s_at_notna_In).
      assert (Hrow : In (t, row4 (s_at sa t * s_at su t) (s_at sf t * s_at su t)
                               (s_at sn t) (s_at su t))
                        (aligned_rows sa sf sn su)).
      { apply (aligned_rows_complete sa sf sn su Va); auto using filled_observed.
        apply row4_complete. rewrite Ea, Eu. repeat split; auto. }
      unfold df_index. cbn [rows].
      apply in_map_iff. eexists. split; [|exact Hrow]. reflexivity.
Qed.

(** C3 (amended).  On four valid raw series the table [process_data]
    returns is indexed by the dates of the first series (acwi) only:
    observations of the other series on other dates are left out.  Along
    those dates each series is forward-filled on its own: the value at a
    date is the value at the latest table date, not after it, at which
    the series has an observation.  Nothing is filled backwards: a date
    before the first such observation of some series is not in the table.
    A table date at which the four converted fills are present is a row
    of the table. *)
Theorem process_data_forward_fill :
  exists w' out,
    process_data (raw_data sa sf sn su) w = (w', Ok out) /\
    aligned_along (s_index sa) sa sf sn su out /\
    (forall t c, In c FIELDS ->
       (forall t', In t' (s_index sa) -> observed (series_of sa sf sn su c) t' -> t < t') ->
       ~ In t (df_index out)).
Proof.
  eexists. eexists. split; [|split].
  - apply process_data_run. now apply process_table_raw_data.
  - now apply process_table_aligned.
  - intros t c Hc Hbefore Hin. unfold df_index in Hin. cbn [rows] in Hin.
    apply in_map_iff in Hin as [[t0 r] [Heq Hin]]. simpl in Heq. subst t0.
    destruct (aligned_rows_observed sa sf sn su Va t r Hin c Hc) as [t' [Hin' [Hle Hobs]]].
    specialize (Hbefore t' Hin' Hobs). lia.
Qed.

End AlignerProperties.

(** ** The samples are valid inputs *)

Ltac sample_valid := apply valid_sample; [discriminate | vm_compute; reflexivity].

Ltac sample_cases H :=
  vm_compute in H;
  repeat (destruct H as [H | H]; [inversion H; subst|]);
  try contradiction.

Lemma acwi_week_constant : constant_series acwi_week 100.
Proof. intros t x H. sample_cases H; reflexivity. Qed.

Lemma usdjpy_week_constant : constant_series usdjpy_week 150.
Proof. intros t x H. sample_cases H; reflexivity. Qed.

Lemma week_gapless : gapless acwi_week fang_week nikkei_week usdjpy_week.
Proof.
  intros t H. sample_cases H; repeat split; vm_compute; reflexivity.
Qed.

Lemma week_fang_converts (t : Timestamp) :
  In t (s_index acwi_week) -> is_nan (s_at fang_week t * 150) = false.
Proof. intros H. sample_cases H; vm_compute; reflexivity. Qed.

(** Four valid series whose dates differ: the first has no entry on
    2024-01-02, the last none on 2024-01-03. *)
Lemma process_data_no_new_dates_week :
  (valid_series acwi_gap /\ valid_series fang_gap /\
   valid_series nikkei_gap /\ valid_series usdjpy_gap) /\
  exists w' out,
    process_data (raw_data acwi_gap fang_gap nikkei_gap usdjpy_gap) world0 = (w', Ok out) /\
    forall t, In t (df_index out) ->
              In t (union_index acwi_gap fang_gap nikkei_gap usdjpy_gap).
Proof.
  assert (Va : valid_series acwi_gap) by sample_valid.
  assert (Vf : valid_series fang_gap) by sample_valid.
  assert (Vn : valid_series nikkei_gap) by sample_valid.
  assert (Vu : valid_series usdjpy_gap) by sample_valid.
  split; [tauto|].
  exact (process_data_no_new_dates acwi_gap fang_gap nikkei_gap usdjpy_gap world0
           Va Vf Vn Vu).
Defined.

Lemma process_data_invariant_week :
  (valid_series acwi_week /\ valid_series fang_week /\
   valid_series nikkei_week /\ valid_series usdjpy_week) /\
  exists w' out,
    process_data (raw_data acwi_week fang_week nikkei_week usdjpy_week) world0
    = (w', Ok out) /\
    (forall t r, In (t, r) (rows out) ->
       forall c, In c FIELDS -> exists v, field_is c r v /\ is_nan v = false) /\
    StronglySorted Z.lt (df_index out) /\
    NoDup (df_index out).
Proof.
  assert (Va : valid_series acwi_week) by sample_valid.
  assert (Vf : valid_series fang_week) by sample_valid.
  assert (Vn : valid_series nikkei_week) by sample_valid.
  assert (Vu : valid_series usdjpy_week) by sample_valid.
  split; [tauto|].
  exact (process_data_invariant acwi_week fang_week nikkei_week usdjpy_week world0
           Va Vf Vn Vu).
Defined.

(** The scenario of the specification: acwi 100.0 and usdjpy 150.0 on
    2024-01-01 .. 2024-01-05 give 15000.0 on each of the five dates. *)
Lemma process_data_conversion_week :
  (valid_series acwi_week /\ valid_series fang_week /\
   valid_series nikkei_week /\ valid_series usdjpy_week) /\
  exists w' out,
    process_data (raw_data acwi_week fang_week nikkei_week usdjpy_week) world0
    = (w', Ok out) /\
    (forall t r, In (t, r) (rows out) -> field_is "acwi" r 15000) /\
    (forall t, In t (s_index acwi_week) -> In t (df_index out)).
Proof.
  assert (Va : valid_series acwi_week) by sample_valid.
  assert (Vf : valid_series fang_week) by sample_valid.
  assert (Vn : valid_series nikkei_week) by sample_valid.
  assert (Vu : valid_series usdjpy_week) by sample_valid.
  split; [tauto|].
  destruct (process_data_conversion acwi_week fang_week nikkei_week usdjpy_week world0
              Va Vf Vn Vu) as [w' [out [Hrun [_ Hconst]]]].
  destruct (Hconst acwi_week_constant usdjpy_week_constant) as [Hrows Hdates].
  exists w', out. split; [exact Hrun|]. split; [exact Hrows|].
  exact (Hdates week_gapless week_fang_converts).
Defined.

Lemma process_data_forward_fill_gap :
  (valid_series acwi_gap /\ valid_series fang_gap /\
   valid_series nikkei_gap /\ valid_series usdjpy_gap) /\
  exists w' out,
    process_data (raw_data acwi_gap fang_gap nikkei_gap usdjpy_gap) world0 = (w', Ok out) /\
    aligned_along (s_index acwi_gap) acwi_gap fang_gap nikkei_gap usdjpy_gap out /\
    (forall t c, In c FIELDS ->
       (forall t', In t' (s_index acwi_gap) ->
                   observed (series_of acwi_gap fang_gap nikkei_gap usdjpy_gap c) t' ->
                   t < t') ->
       ~ In t (df_index out)).
Proof.
  assert (Va : valid_series acwi_gap) by sample_valid.
  assert (Vf : valid_series fang_gap) by sample_valid.
  assert (Vn : valid_series nikkei_gap) by sample_valid.
  assert (Vu : valid_series usdjpy_gap) by sample_valid.
  split; [tauto|].
  exact (process_data_forward_fill acwi_gap fang_gap nikkei_gap usdjpy_gap world0
           Va Vf Vn Vu).
Defined.

(** C3, as stated, fails.  The first series has the dates 01-01 and
    01-03; the exchange rate has 150.0 on 01-01 and 151.0 on 01-02.  In
    the union index the fill of the exchange rate at 01-03 is 151.0, the
    value of the latest prior date; the table holds 150.0 there. *)
Lemma forward_fill_not_along_union :
  exists out,
    process_table (raw_data acwi_gap fang_gap nikkei_gap usdjpy_gap) = Ok out /\
    In (jan 3, row4 15000 1050 30000 150) (rows out) /\
    ~ aligned_along (union_index acwi_gap fang_gap nikkei_gap usdjpy_gap)
                    acwi_gap fang_gap nikkei_gap usdjpy_gap out.
Proof.
  eexists. split; [vm_compute; reflexivity|].
  split; [vm_compute; tauto|].
  intros [Hsound _].
  destruct (Hsound (jan 3) (row4 15000 1050 30000 150)) as [_ [a [f [n [u H]]]]].
  { vm_compute. tauto. }
  destruct H as [_ [_ [_ [Hu Hr]]]].
  assert (Eu : u = 150%float) by (inversion Hr; reflexivity).
  subst u. clear Hr.
  destruct Hu as [[t' [_ [Hle [Hobs [Hv Hmax]]]]] | [Hv _]].
  - assert (H2 : jan 2 <= t').
    { apply Hmax; vm_compute; try tauto; try reflexivity. discriminate. }
    unfold observed, s_at, usdjpy_gap in Hobs, Hv. cbn [s_find] in Hobs, Hv.
    destruct (Z.eqb_spec (jan 1) t') as [E1|_].
    { subst t'. vm_compute in H2. now elim H2. }
    destruct (Z.eqb_spec (jan 2) t') as [E2|_].
    + apply (f_equal (fun x => (x <? 151)%float)) in Hv. vm_compute in Hv. discriminate.
    + vm_compute in Hobs. discriminate.
  - apply (f_equal is_nan) in Hv. vm_compute in Hv. discriminate.
Qed.

(** ** The serializer *)

Section Serializer.

Local Open Scope string_scope.

Lemma record_of_row_row4 (t : Timestamp) (a f n u : float) :
  record_of_row t (row4 a f n u) = Ok (row_record (t, row4 a f n u)).
Proof.
  unfold record_of_row, row_record. cbn.
  destruct (notna f); reflexivity.
Qed.

Lemma records_of_rows_row4 (rs : list (Timestamp * Row)) (acc : list DataRecord) :
  Forall is_row4 rs ->
  records_of_rows rs acc = Ok (acc ++ map row_record rs)%list.
Proof.
  intros H. revert acc.
  induction H as [|[t r] rs [a [f [n [u Hr]]]] _ IH]; intros acc; simpl.
  - now rewrite app_nil_r.
  - simpl in Hr. subst r. rewrite record_of_row_row4. cbn [bind].
    rewrite IH, <- app_assoc. reflexivity.
Qed.

(** A row without one of the four fields is the only way the loop over
    the rows fails. *)
Lemma record_of_row_error (t : Timestamp) (r : Row) (e : exn) :
  record_of_row t r = Raise e -> exists k, e = KeyError k.
Proof.
  unfold record_of_row, row_getitem.
  destruct (row_find "acwi" r); cbn [bind]; [|intros H; inversion H; eauto].
  destruct (row_find "fang" r); cbn [bind]; [|intros H; inversion H; eauto].
  destruct (notna f0); cbn [bind];
    (destruct (row_find "nikkei" r); cbn [bind]; [|intros H; inversion H; eauto]);
    (destruct (row_find "usdjpy" r); cbn [bind]; [|intros H; inversion H; eauto]);
    discriminate.
Qed.

Lemma records_of_rows_error (rs : list (Timestamp * Row)) (acc : list DataRecord) (e : exn) :
  records_of_rows rs acc = Raise e -> exists k, e = KeyError k.
Proof.
  revert acc. induction rs as [|[t r] rs IH]; intros acc; simpl; [discriminate|].
  destruct (record_of_row t r) as [rec|e'] eqn:E; cbn [bind].
  - apply IH.
  - intros H. inversion H; subst. eapply record_of_row_error; eauto.
Qed.

(** What [save_to_json] does to the world: it prints, makes the output
    directory, and then either writes the document and returns the path,
    or raises with no file written. *)
Lemma save_to_json_run (df : DataFrame) (w : World) :
  save_to_json df w =
  match document_of (clock w) df with
  | Ok doc =>
      (mkWorld (clock w) (with_output_dir (dirs w))
               (put_file filepath doc (files w))
               (console w ++ [LRule "-" 50; LSaving; LSaved filepath]),
       Ok filepath)
  | Raise e =>
      (mkWorld (clock w) (with_output_dir (dirs w)) (files w)
               (console w ++ [LRule "-" 50; LSaving]),
       Raise e)
  end.
Proof.
  unfold save_to_json, document_of, bindM, lift, ret, print, makedirs,
    datetime_now, json_dump, with_output_dir.
  cbn [clock dirs files console].
  destruct (index_first df) as [first|e]; cbn [bind]; rewrite <- ?app_assoc; [|reflexivity].
  destruct (index_last df) as [last|e]; cbn [bind]; [|reflexivity].
  destruct (records_of_rows (rows df) []) as [recs|e]; cbn [bind]; reflexivity.
Qed.

Lemma read_put_file (path : string) (doc : OutputDocument)
  (fs : list (string * OutputDocument)) :
  read_file path (put_file path doc fs) = Some doc.
Proof.
  induction fs as [|[p d] fs IH]; simpl.
  - now rewrite String.eqb_refl.
  - destruct (String.eqb p path) eqn:E; simpl; rewrite E; [reflexivity | exact IH].
Qed.

Lemma index_last_nonempty (df : DataFrame) (d : Timestamp) :
  rows df <> [] -> index_last df = Ok (last (df_index df) d).
Proof.
  intros H. unfold index_last.
  assert (Hidx : df_index df <> []).
  { unfold df_index. destruct (rows df); [contradiction | discriminate]. }
  rewrite (app_removelast_last d Hidx) at 1.
  rewrite rev_app_distr. reflexivity.
Qed.

Lemma document_of_row4 (now : Timestamp) (df : DataFrame) (t0 : Timestamp) (r0 : Row)
  (rest : list (Timestamp * Row)) :
  rows df = (t0, r0) :: rest -> Forall is_row4 (rows df) ->
  document_of now df =
  Ok (mkDocument
        (mkMetadata (isoformat now) (strftime_ymd t0)
                    (strftime_ymd (last (df_index df) t0)) (len df) DESCRIPTION)
        (map row_record (rows df))).
Proof.
  intros Hrows Hshape. unfold document_of.
  rewrite (index_last_nonempty df t0) by (rewrite Hrows; discriminate).
  rewrite (records_of_rows_row4 _ [] Hshape).
  unfold index_first, df_index. rewrite Hrows. reflexivity.
Qed.

(** The text of a formatted date: ten characters, dashes after the year
    and after the month. *)
Lemma strftime_ymd_shape (t : Timestamp) :
  String.length (strftime_ymd t) = 10%nat /\
  String.get 4 (strftime_ymd t) = Some "-"%char /\
  String.get 7 (strftime_ymd t) = Some "-"%char.
Proof.
  unfold strftime_ymd.
  destruct (civil_from_days (t / ns_per_day)) as [[y m] d].
  repeat split.
Qed.

End Serializer.

Section SerializerProperties.

Local Open Scope string_scope.

(** C7.  For a non-empty table of the four fields, [save_to_json] writes
    a document whose [start_date] is the first date of the table and whose
    [end_date] is the last, both as YYYY-MM-DD; whose [total_records] is
    the number of rows; and whose [data] list has one record per row, in
    the order of the rows, dated by the date of its row. *)
Theorem save_to_json_document (df : DataFrame) (w : World) (t0 : Timestamp) (r0 : Row)
  (rest : list (Timestamp * Row)) :
  rows df = (t0, r0) :: rest ->
  Forall is_row4 (rows df) ->
  exists w' doc,
    save_to_json df w = (w', Ok filepath) /\
    read_file filepath (files w') = Some doc /\
    start_date (metadata doc) = strftime_ymd t0 /\
    end_date (metadata doc) = strftime_ymd (last (df_index df) t0) /\
    total_records (metadata doc) = List.length (rows df) /\
    data doc = map row_record (rows df) /\
    map date (data doc) = map strftime_ymd (df_index df) /\
    (forall t, String.length (strftime_ymd t) = 10%nat /\
               String.get 4 (strftime_ymd t) = Some "-"%char /\
               String.get 7 (strftime_ymd t) = Some "-"%char).
Proof.
  intros Hrows Hshape. rewrite save_to_json_run.
  rewrite (document_of_row4 (clock w) df t0 r0 rest Hrows Hshape).
  eexists. eexists. split; [reflexivity|].
  cbn [files]. rewrite read_put_file. split; [reflexivity|].
  cbn [metadata data start_date end_date total_records].
  repeat split; try apply strftime_ymd_shape.
  unfold df_index. rewrite !map_map. reflexivity.
Qed.

(** C8.  The serializer is deterministic on its table: run in any two
    worlds on the same table it returns or raises alike, and when it
    returns, the two documents written have the same [data] list and the
    same metadata apart from [generated_at]. *)
Theorem save_to_json_deterministic (df : DataFrame) (w1 w2 : World) :
  snd (save_to_json df w1) = snd (save_to_json df w2) /\
  forall path, snd (save_to_json df w1) = Ok path ->
    exists d1 d2,
      read_file path (files (fst (save_to_json df w1))) = Some d1 /\
      read_file path (files (fst (save_to_json df w2))) = Some d2 /\
      data d1 = data d2 /\
      start_date (metadata d1) = start_date (metadata d2) /\
      end_date (metadata d1) = end_date (metadata d2) /\
      total_records (metadata d1) = total_records (metadata d2) /\
      description (metadata d1) = description (metadata d2).
Proof.
  rewrite !save_to_json_run. unfold document_of.
  destruct (index_first df) as [first|e]; cbn [bind]; [|split; [reflexivity|discriminate]].
  destruct (index_last df) as [last|e]; cbn [bind]; [|split; [reflexivity|discriminate]].
  destruct (records_of_rows (rows df) []) as [recs|e]; cbn [bind];
    [|split; [reflexivity|discriminate]].
  split; [reflexivity|].
  cbn [fst snd files]. intros path Hpath. inversion Hpath; subst path.
  eexists. eexists. rewrite !read_put_file.
  repeat split; reflexivity.
Qed.

(** C9.  [save_to_json] needs a non-empty table: on a table without rows,
    and only then, it raises the indexing error, after the directory was
    made and before any file is written; nothing catches it, so a run whose
    incomplete rows were all dropped ends in that error without an output
    file. *)
Theorem save_to_json_needs_rows :
  (forall df w, rows df = [] <-> snd (save_to_json df w) = Raise IndexError) /\
  (forall df w, rows df = [] -> files (fst (save_to_json df w)) = files w) /\
  (process_table (raw_data acwi_gap fang_late nikkei_gap usdjpy_gap)
   = Ok (mkDF FIELDS []) /\
   snd (main provider_late world0) = Raise IndexError /\
   files (fst (main provider_late world0)) = []).
Proof.
  split; [|split].
  - intros df w. rewrite save_to_json_run. unfold document_of, index_first, index_last.
    split.
    + intros H. unfold df_index. rewrite H. reflexivity.
    + destruct (rows df) as [|[t r] rs] eqn:Hrows; [reflexivity|].
      assert (Hidx : df_index df <> []) by (unfold df_index; rewrite Hrows; discriminate).
      destruct (df_index df) as [|t1 idx] eqn:E1; [contradiction|].
      destruct (rev (t1 :: idx)) as [|t2 idx'] eqn:E2.
      { apply (f_equal (@rev _)) in E2. rewrite rev_involutive in E2. discriminate. }
      cbn [bind].
      destruct (records_of_rows ((t, r) :: rs) []) as [recs|e] eqn:E3; cbn [bind snd].
      * discriminate.
      * intros H. inversion H; subst.
        apply records_of_rows_error in E3 as [k Hk]. discriminate.
  - intros df w H. rewrite save_to_json_run. unfold document_of, index_first, df_index.
    rewrite H. reflexivity.
  - repeat split; vm_compute; reflexivity.
Qed.

End SerializerProperties.

Lemma save_to_json_document_week :
  exists df t0 r0 rest,
    (rows df = (t0, r0) :: rest /\ Forall is_row4 (rows df)) /\
    exists w' doc,
      save_to_json df world0 = (w', Ok filepath) /\
      read_file filepath (files w') = Some doc /\
      start_date (metadata doc) = "2024-01-01"%string /\
      end_date (metadata doc) = "2024-01-05"%string /\
      total_records (metadata doc) = 5%nat /\
      map date (data doc) = ["2024-01-01"; "2024-01-02"; "2024-01-03";
                             "2024-01-04"; "2024-01-05"]%string.
Proof.
  exists (mkDF FIELDS (aligned_rows acwi_week fang_week nikkei_week usdjpy_week)).
  eexists. eexists. eexists.
  assert (Hrows : rows (mkDF FIELDS (aligned_rows acwi_week fang_week nikkei_week
                                                  usdjpy_week))
                  = (jan 1, row4 15000 1050 30000 150)
                    :: map (fun d => (jan d, row4 15000 1050 30000 150)) [2; 3; 4; 5])
    by (vm_compute; reflexivity).
  assert (Hshape : Forall is_row4
                     (rows (mkDF FIELDS (aligned_rows acwi_week fang_week nikkei_week
                                                      usdjpy_week)))).
  { rewrite Hrows. repeat constructor; unfold is_row4; simpl; eauto. }
  split; [split; [exact Hrows | exact Hshape]|].
  destruct (save_to_json_document _ world0 _ _ _ Hrows Hshape)
    as [w' [doc [Hrun [Hread [Hs [He [Hn [_ [Hd _]]]]]]]]].
  exists w', doc. split; [exact Hrun|]. split; [exact Hread|].
  split; [rewrite Hs; vm_compute; reflexivity|].
  split; [rewrite He; vm_compute; reflexivity|].
  split; [rewrite Hn; vm_compute; reflexivity|].
  rewrite Hd. vm_compute. reflexivity.
Defined.

(** ** The fetcher *)

Section Fetcher.

Local Open Scope string_scope.

Lemma key2_eqb_eq (a b : string * string) : key2_eqb a b = true <-> a = b.
Proof.
  destruct a as [a0 a1], b as [b0 b1]. unfold key2_eqb. simpl.
  rewrite andb_true_iff, !String.eqb_eq. split.
  - intros [-> ->]. reflexivity.
  - intros H. inversion H. auto.
Qed.

Lemma column_of_In {K : Type} (eqb : K -> K -> bool)
  (eqb_eq : forall a b, eqb a b = true <-> a = b)
  (cols : list (K * list float)) (k : K) (vals : list float) :
  NoDup (map fst cols) -> In (k, vals) cols -> column_of eqb k cols = Some vals.
Proof.
  induction cols as [|[k' v'] cols IH]; simpl; intros Hnd Hin; [contradiction|].
  inversion Hnd as [|? ? Hk Hnd']; subst.
  destruct Hin as [Heq | Hin].
  - inversion Heq; subst. now rewrite (proj2 (eqb_eq k k) eq_refl).
  - destruct (eqb k' k) eqn:E.
    + apply eqb_eq in E. subst k'. exfalso. apply Hk.
      change k with (fst (k, vals)). now apply in_map.
    + now apply IH.
Qed.

Lemma column_of_prefix {K : Type} (eqb : K -> K -> bool)
  (eqb_eq : forall a b, eqb a b = true <-> a = b)
  (pre post : list (K * list float)) (k : K) (vals : list float) :
  ~ In k (map fst pre) ->
  column_of eqb k (pre ++ (k, vals) :: post) = Some vals.
Proof.
  induction pre as [|[k' v'] pre IH]; simpl; intros Hk.
  - now rewrite (proj2 (eqb_eq k k) eq_refl).
  - destruct (eqb k' k) eqn:E.
    + apply eqb_eq in E. subst k'. exfalso. apply Hk. now left.
    + apply IH. intros Hin. apply Hk. now right.
Qed.

Lemma filter_none {X : Type} (p : X -> bool) (l : list X) :
  (forall x, In x l -> p x = false) -> filter p l = [].
Proof.
  induction l as [|x l IH]; simpl; intros H; [reflexivity|].
  rewrite (H x (or_introl eq_refl)). apply IH. intros y Hy. apply H. now right.
Qed.

Lemma existsb_label (c : string) (l : list string) :
  existsb (String.eqb c) l = true <-> In c l.
Proof.
  rewrite existsb_exists. split.
  - intros [x [Hin Heq]]. apply String.eqb_eq in Heq. now subst.
  - intros Hin. exists c. split; [exact Hin | apply String.eqb_refl].
Qed.

(** One pass of the loop of [fetch_data] returns, with the dictionary as
    it was or with one series set, and only prints. *)
Lemma fetch_one_returns (yf : Provider) (start stop : Timestamp)
  (name ticker : string) (data : Dict Series) (w : World) :
  exists ls data',
    fetch_one yf start stop name ticker data w = (printed ls w, Ok data') /\
    (data' = data \/ exists s, data' = dict_set name s data).
Proof.
  unfold fetch_one, bindM, try_except, download, lift, ret.
  rewrite print_printed.
  destruct (yf ticker start stop) as [df|e];
    [destruct (0 <? response_len df)%nat;
     [destruct (select_price df) as [s|e];
      [destruct (response_index df) as [|t idx];
       [|destruct (rev (t :: idx)) as [|t' idx']]|]|]|];
    rewrite ?print_printed, ?printed_app;
    eexists; eexists; (split; [reflexivity | eauto]).
Qed.

Lemma fetch_loop_returns (yf : Provider) (start stop : Timestamp)
  (tickers : list (string * string)) (data : Dict Series) (w : World) :
  exists ls data', fetch_loop yf start stop tickers data w = (printed ls w, Ok data').
Proof.
  revert data w. induction tickers as [|[name ticker] rest IH]; intros data w; simpl.
  - exists [], data. unfold ret, printed. rewrite app_nil_r. now destruct w.
  - unfold bindM.
    destruct (fetch_one_returns yf start stop name ticker data w) as [ls [d1 [H1 _]]].
    rewrite H1.
    destruct (IH d1 (printed ls w)) as [ls' [d2 H2]].
    rewrite H2, printed_app. eauto.
Qed.

(** [fetch_data] always returns a dictionary; it only prints. *)
Lemma fetch_data_returns (yf : Provider) (w : World) :
  exists ls raw, fetch_data yf w = (printed ls w, Ok raw).
Proof.
  unfold fetch_data, bindM, datetime_now. rewrite !print_printed, printed_app.
  destruct (fetch_loop_returns yf (clock w - YEARS_BACK * 365 * ns_per_day) (clock w)
              TICKERS [] (printed [LPeriod
                 (strftime_ymd (clock w - YEARS_BACK * 365 * ns_per_day))
                 (strftime_ymd (clock w)); LRule "-" 50] w)) as [ls [raw H]].
  cbn [app]. rewrite H, printed_app. eauto.
Qed.

(** For a response with at least one row and a price column, the loop
    stores the column [select_price] keeps. *)
Lemma fetch_one_stores (yf : Provider) (start stop : Timestamp)
  (name ticker : string) (data : Dict Series) (w : World) (df : Response) (s : Series) :
  yf ticker start stop = Ok df -> (0 < response_len df)%nat ->
  select_price df = Ok s ->
  snd (fetch_one yf start stop name ticker data w) = Ok (dict_set name s data).
Proof.
  intros Hyf Hlen Hsel.
  unfold fetch_one, bindM, try_except, download, lift, ret.
  rewrite print_printed, Hyf.
  apply Nat.ltb_lt in Hlen. rewrite Hlen, Hsel.
  destruct (response_index df) as [|t idx]; [reflexivity|].
  destruct (rev (t :: idx)); reflexivity.
Qed.

End Fetcher.

Section FetcherProperties.

Local Open Scope string_scope.

(** C6 (amended).  The column the fetcher keeps of a response with
    distinct column labels.  Multi-level columns: a column of the field
    [Close], when no column before it has a top-level label that contains
    [Close]; the first column when no top-level label contains [Close].
    Single-level columns: [Close] when present, otherwise [Adj Close] when
    present, otherwise the first column. *)
Theorem select_price_rule (idx : list Timestamp)
  (mcols : list ((string * string) * list float)) (scols : list (string * list float)) :
  NoDup (map fst mcols) -> NoDup (map fst scols) ->
  (forall pre ticker vals post,
     mcols = (pre ++ (("Close", ticker), vals) :: post)%list ->
     (forall k, In k (map fst pre) -> contains "Close" (fst k) = false) ->
     select_price (MultiLevel idx mcols) = Ok (combine idx vals)) /\
  ((forall k, In k (map fst mcols) -> contains "Close" (fst k) = false) ->
   forall k vals rest, mcols = (k, vals) :: rest ->
     select_price (MultiLevel idx mcols) = Ok (combine idx vals)) /\
  (forall vals, In ("Close", vals) scols ->
     select_price (SingleLevel idx scols) = Ok (combine idx vals)) /\
  (~ In "Close" (map fst scols) ->
   forall vals, In ("Adj Close", vals) scols ->
     select_price (SingleLevel idx scols) = Ok (combine idx vals)) /\
  (~ In "Close" (map fst scols) -> ~ In "Adj Close" (map fst scols) ->
   forall k vals rest, scols = (k, vals) :: rest ->
     select_price (SingleLevel idx scols) = Ok (combine idx vals)).
Proof.
  intros Hm Hs. repeat split.
  - intros pre ticker vals post Hcols Hpre. subst mcols. unfold select_price.
    rewrite map_app, filter_app, (filter_none _ _ Hpre). cbn.
    unfold response_getitem.
    rewrite (column_of_prefix key2_eqb key2_eqb_eq); [reflexivity|].
    intros Hin. specialize (Hpre _ Hin). cbn in Hpre. discriminate.
  - intros Hnone k vals rest Hcols. unfold select_price.
    rewrite (filter_none _ _ Hnone). subst mcols. reflexivity.
  - intros vals Hin. unfold select_price.
    assert (Hc : In "Close" (map fst scols)).
    { change "Close" with (fst ("Close", vals)). now apply in_map. }
    rewrite (proj2 (existsb_label _ _) Hc). unfold response_getitem.
    now rewrite (column_of_In String.eqb String.eqb_eq scols "Close" vals Hs Hin).
  - intros Hc vals Hin. unfold select_price.
    assert (Ha : In "Adj Close" (map fst scols)).
    { change "Adj Close" with (fst ("Adj Close", vals)). now apply in_map. }
    destruct (existsb (String.eqb "Close") (map fst scols)) eqn:E.
    { apply existsb_label in E. contradiction. }
    rewrite (proj2 (existsb_label _ _) Ha). unfold response_getitem.
    now rewrite (column_of_In String.eqb String.eqb_eq scols "Adj Close" vals Hs Hin).
  - intros Hc Ha k vals rest Hcols. unfold select_price.
    destruct (existsb (String.eqb "Close") (map fst scols)) eqn:E.
    { apply existsb_label in E. contradiction. }
    destruct (existsb (String.eqb "Adj Close") (map fst scols)) eqn:E'.
    { apply existsb_label in E'. contradiction. }
    subst scols. reflexivity.
Qed.

(** C6, as stated, fails: of a multi-level response whose fields are
    [Open] and [High] the fetcher keeps the first column, [Open]; no column
    of a field [Close] is kept. *)
Lemma multi_level_without_close :
  select_price response_no_close = Ok [(jan 1, 1%float); (jan 2, 2%float)] /\
  ~ keeps_close_field [jan 1; jan 2]
      [(("Open", "ACWI"), [1; 2]%float); (("High", "ACWI"), [3; 4]%float)].
Proof.
  split; [vm_compute; reflexivity|].
  intros [ticker [vals [Hin _]]].
  simpl in Hin. destruct Hin as [H | [H | []]]; inversion H.
Qed.

(** C2.  [fetch_data] always returns; when it returned fewer than four
    series, [main] prints the error line after what the fetch printed and
    returns: no directory is made and no file is written, and nothing is
    processed or saved. *)
Theorem main_aborts_on_missing_symbol (yf : Provider) (w : World) :
  exists w1 raw,
    fetch_data yf (printed [LRule "=" 50; LTitle; LRule "=" 50] w) = (w1, Ok raw) /\
    files w1 = files w /\ dirs w1 = dirs w /\
    ((List.length raw < 4)%nat ->
     main yf w = (printed [LMissingData] w1, Ok tt)).
Proof.
  destruct (fetch_data_returns yf (printed [LRule "=" 50; LTitle; LRule "=" 50] w))
    as [ls [raw H]].
  eexists. exists raw. split; [exact H|]. split; [reflexivity|]. split; [reflexivity|].
  intros Hlen. unfold main, bindM. rewrite !print_printed.
  replace (printed [LRule "=" 50] (printed [LTitle] (printed [LRule "=" 50] w)))
    with (printed [LRule "=" 50; LTitle; LRule "=" 50] w)
    by (now rewrite !printed_app).
  rewrite H.
  apply Nat.ltb_lt in Hlen. rewrite Hlen. reflexivity.
Qed.

End FetcherProperties.

Section FetcherExamples.

Local Open Scope string_scope.

Lemma select_price_rule_multi :
  (NoDup (map fst [(("Open", "ACWI"), [1; 2]%float); (("Close", "ACWI"), [3; 4]%float)])
   /\ NoDup (map fst [("Adj Close", [5; 6]%float); ("Close", [7; 8]%float)])) /\
  select_price response_multi = Ok [(jan 1, 3%float); (jan 2, 4%float)] /\
  select_price (SingleLevel [jan 1; jan 2]
                  [("Adj Close", [5; 6]%float); ("Close", [7; 8]%float)])
  = Ok [(jan 1, 7%float); (jan 2, 8%float)].
Proof.
  assert (Hm : NoDup (map fst [(("Open", "ACWI")%string, [1; 2]%float);
                               (("Close", "ACWI")%string, [3; 4]%float)])).
  { repeat constructor; simpl; intuition discriminate. }
  assert (Hs : NoDup (map fst [("Adj Close"%string, [5; 6]%float);
                               ("Close"%string, [7; 8]%float)])).
  { repeat constructor; simpl; intuition discriminate. }
  split; [split; assumption|].
  destruct (select_price_rule [jan 1; jan 2] _ _ Hm Hs) as [Hmulti [_ [Hclose _]]].
  split.
  - apply (Hmulti [(("Open", "ACWI")%string, [1; 2]%float)] "ACWI"%string
                  [3; 4]%float []); [reflexivity|].
    intros k [<- | []]. reflexivity.
  - apply (Hclose [7; 8]%float). simpl. tauto.
Defined.

(** Three of the four symbols fetched: the run ends after the error line,
    with no directory and no file. *)
Lemma main_aborts_three_of_four :
  exists w1 raw,
    fetch_data provider3 (printed [LRule "=" 50; LTitle; LRule "=" 50] world0)
    = (w1, Ok raw) /\
    List.length raw = 3%nat /\
    main provider3 world0 = (printed [LMissingData] w1, Ok tt) /\
    files (fst (main provider3 world0)) = [] /\
    dirs (fst (main provider3 world0)) = [].
Proof.
  destruct (main_aborts_on_missing_symbol provider3 world0)
    as [w1 [raw [Hfetch [Hfiles [Hdirs Hmain]]]]].
  exists w1, raw. split; [exact Hfetch|].
  assert (Hlen : List.length raw = 3%nat).
  { vm_compute in Hfetch. inversion Hfetch. reflexivity. }
  split; [exact Hlen|].
  assert (Hrun : main provider3 world0 = (printed [LMissingData] w1, Ok tt))
    by (apply Hmain; rewrite Hlen; lia).
  split; [exact Hrun|]. rewrite Hrun. cbn [fst printed files dirs].
  rewrite Hfiles, Hdirs. split; reflexivity.
Defined.

End FetcherExamples.

(** * More of the script *)

(** ** What [fetch_data] returns *)

Section FetchResult.

Local Open Scope string_scope.

Variable yf : Provider.
Variables start stop : Timestamp.

Lemma dict_set_fresh {V : Type} (k : string) (v : V) (d : Dict V) :
  ~ In k (map fst d) -> dict_set k v d = (d ++ [(k, v)])%list.
Proof.
  induction d as [|[k' v'] d IH]; simpl; intros H; [reflexivity|].
  destruct (String.eqb_spec k' k) as [->|Hne].
  - exfalso. apply H. now left.
  - rewrite IH; [reflexivity|]. intros Hin. apply H. now right.
Qed.

Lemma fetch_one_fetched (name ticker : string) (data : Dict Series) (w : World) :
  exists ls,
    fetch_one yf start stop name ticker data w =
    (printed ls w,
     Ok (match fetched yf start stop ticker with
         | Some s => dict_set name s data
         | None => data
         end)).
Proof.
  unfold fetch_one, fetched, bindM, try_except, download, lift, ret.
  rewrite print_printed.
  destruct (yf ticker start stop) as [df|e];
    [destruct (0 <? response_len df)%nat;
     [destruct (select_price df) as [s|e];
      [destruct (response_index df) as [|t idx];
       [|destruct (rev (t :: idx)) as [|t' idx']]|]|]|];
    rewrite ?print_printed, ?printed_app;
    eexists; reflexivity.
Qed.

Lemma fetch_loop_fetched (tickers : list (string * string)) :
  NoDup (map fst tickers) ->
  forall (data : Dict Series) (w : World),
    (forall k, In k (map fst tickers) -> ~ In k (map fst data)) ->
    exists ls,
      fetch_loop yf start stop tickers data w =
      (printed ls w, Ok (data ++ fetched_dict yf start stop tickers)%list).
Proof.
  induction tickers as [|[name ticker] rest IH]; intros Hnd data w Hfresh.
  - exists []. simpl. unfold ret, printed. rewrite !app_nil_r. now destruct w.
  - simpl in Hnd. inversion Hnd as [|? ? Hname Hrest]; subst.
    cbn [fetch_loop fetched_dict]. unfold bindM.
    destruct (fetch_one_fetched name ticker data w) as [ls1 H1]. rewrite H1.
    assert (Hname' : ~ In name (map fst data)) by (apply Hfresh; now left).
    destruct (fetched yf start stop ticker) as [s|].
    + rewrite (dict_set_fresh name s data Hname').
      destruct (IH Hrest (data ++ [(name, s)])%list (printed ls1 w)) as [ls2 H2].
      { intros k Hk Hin. rewrite map_app in Hin. apply in_app_or in Hin as [Hin | Hin].
        - apply (Hfresh k); [now right | exact Hin].
        - simpl in Hin. destruct Hin as [<- | []]. contradiction. }
      rewrite H2, printed_app, <- app_assoc. eauto.
    + destruct (IH Hrest data (printed ls1 w)) as [ls2 H2].
      { intros k Hk. apply Hfresh. now right. }
      rewrite H2, printed_app. eauto.
Qed.

End FetchResult.

Section FetchProperties.

Local Open Scope string_scope.

Lemma fetch_data_fetched (yf : Provider) (w : World) :
  exists ls,
    fetch_data yf w =
    (printed ls w,
     Ok (fetched_dict yf (window_start (clock w)) (clock w) TICKERS)).
Proof.
  unfold fetch_data, bindM, datetime_now. rewrite !print_printed, printed_app.
  fold (window_start (clock w)).
  destruct (fetch_loop_fetched yf (window_start (clock w)) (clock w) TICKERS) with
    (data := @nil (string * Series))
    (w := printed ([LPeriod (strftime_ymd (window_start (clock w)))
                            (strftime_ymd (clock w))] ++ [LRule "-" 50]) w)
    as [ls H].
  - unfold TICKERS. simpl. repeat constructor; simpl; intuition discriminate.
  - intros k _ [].
  - rewrite H, printed_app. eauto.
Qed.

Lemma fetched_dict_In (yf : Provider) (start stop : Timestamp)
  (tickers : list (string * string)) (name : string) (s : Series) :
  In (name, s) (fetched_dict yf start stop tickers) <->
  exists ticker, In (name, ticker) tickers /\ fetched yf start stop ticker = Some s.
Proof.
  induction tickers as [|[n t] rest IH]; simpl.
  - split; [tauto | intros [? [[] _]]].
  - destruct (fetched yf start stop t) as [s0|] eqn:E; simpl; rewrite IH; split.
    + intros [H | [ticker [Hin Hf]]].
      * inversion H; subst. exists t. split; [now left | exact E].
      * exists ticker. split; [now right | exact Hf].
    + intros [ticker [[H | Hin] Hf]].
      * inversion H; subst. left. congruence.
      * right. eauto.
    + intros [ticker [Hin Hf]]. exists ticker. split; [now right | exact Hf].
    + intros [ticker [[H | Hin] Hf]].
      * inversion H; subst. congruence.
      * eauto.
Qed.

(** X1.  [fetch_data] always returns and only prints.  It asks the
    provider for the four tickers over the window from 7300 days before
    the clock reading to the clock reading, and its dictionary holds a
    series under a name exactly when the response for the ticker of that
    name had a row and a column to select: a symbol whose request raised
    or whose response was empty is left out, and the symbols after it are
    still fetched. *)
Theorem fetch_data_result (yf : Provider) (w : World) :
  exists ls raw,
    fetch_data yf w = (printed ls w, Ok raw) /\
    raw = fetched_dict yf (window_start (clock w)) (clock w) TICKERS /\
    forall name s,
      In (name, s) raw <->
      exists ticker,
        In (name, ticker) TICKERS /\
        exists df,
          yf ticker (clock w - 7300 * ns_per_day) (clock w) = Ok df /\
          (0 < response_len df)%nat /\ select_price df = Ok s.
Proof.
  destruct (fetch_data_fetched yf w) as [ls H].
  exists ls. eexists. split; [exact H|]. split; [reflexivity|].
  intros name s. rewrite fetched_dict_In.
  split; intros [ticker [Hin Hf]]; exists ticker; (split; [exact Hin|]).
  - unfold fetched, window_start in Hf.
    change (YEARS_BACK * 365) with 7300 in Hf.
    destruct (yf ticker (clock w - 7300 * ns_per_day) (clock w)) as [df|e] eqn:Hyf;
      [|discriminate].
    destruct (0 <? response_len df)%nat eqn:Hlen; [|discriminate].
    destruct (select_price df) as [s'|e] eqn:Hsel; [|discriminate].
    inversion Hf; subst. exists df.
    split; [reflexivity|]. split; [now apply Nat.ltb_lt | exact Hsel].
  - destruct Hf as [df [Hyf [Hlen Hsel]]].
    unfold fetched, window_start. change (YEARS_BACK * 365) with 7300.
    rewrite Hyf. apply Nat.ltb_lt in Hlen. rewrite Hlen, Hsel. reflexivity.
Qed.

(** X2.  The dictionary of a fetch has four entries exactly when each of
    the four symbols was fetched, and then it holds the four series under
    [acwi], [fang], [nikkei], [usdjpy], in that order; it never has more
    than four. *)
Theorem fetched_dict_four (yf : Provider) (start stop : Timestamp) :
  (List.length (fetched_dict yf start stop TICKERS) <= 4)%nat /\
  ((List.length (fetched_dict yf start stop TICKERS) = 4)%nat <->
   exists sa sf sn su,
     fetched yf start stop "ACWI" = Some sa /\
     fetched yf start stop "^NYFANG" = Some sf /\
     fetched yf start stop "^N225" = Some sn /\
     fetched yf start stop "USDJPY=X" = Some su /\
     fetched_dict yf start stop TICKERS = raw_data sa sf sn su).
Proof.
  unfold TICKERS. cbn [fetched_dict].
  destruct (fetched yf start stop "ACWI") as [sa|];
    destruct (fetched yf start stop "^NYFANG") as [sf|];
    destruct (fetched yf start stop "^N225") as [sn|];
    destruct (fetched yf start stop "USDJPY=X") as [su|];
    cbn [List.length]; (split; [lia|]);
    (split;
     [intros H; try discriminate H; try (exists sa, sf, sn, su; repeat split)
     |intros [a [f [n [u [Ha [Hf [Hn [Hu _]]]]]]]]; try discriminate; reflexivity]).
Qed.

End FetchProperties.

(** ** The column kept of a response *)

Section SelectProperties.

Local Open Scope string_scope.

Lemma column_of_some {K : Type} (eqb : K -> K -> bool)
  (eqb_eq : forall a b, eqb a b = true <-> a = b)
  (cols : list (K * list float)) (k : K) :
  In k (map fst cols) -> exists vals, column_of eqb k cols = Some vals.
Proof.
  induction cols as [|[k' v'] cols IH]; simpl; intros Hin; [contradiction|].
  destruct (eqb k' k) eqn:E; [eauto|].
  destruct Hin as [Heq | Hin]; [|now apply IH].
  subst k'. rewrite (proj2 (eqb_eq k k) eq_refl) in E. discriminate.
Qed.

(** X3.  Of a multi-level response the fetcher keeps the first column, in
    column order, whose top-level label contains the text [Close]: the
    test is [in] on the label, so a label such as [Adj Close] counts. *)
Theorem select_price_first_close_label (idx : list Timestamp)
  (pre post : list ((string * string) * list float)) (k : string * string)
  (vals : list float) :
  contains "Close" (fst k) = true ->
  (forall k', In k' (map fst pre) -> contains "Close" (fst k') = false) ->
  select_price (MultiLevel idx (pre ++ (k, vals) :: post)) = Ok (combine idx vals).
Proof.
  intros Hk Hpre. unfold select_price.
  rewrite map_app, filter_app, (filter_none _ _ Hpre). cbn [map filter fst app].
  rewrite Hk. unfold response_getitem.
  rewrite (column_of_prefix key2_eqb key2_eqb_eq); [reflexivity|].
  intros Hin. specialize (Hpre _ Hin). congruence.
Qed.

(** X4.  Selecting the price column fails only on a response without
    columns, and then with the indexing error of [iloc]; of a response
    with at least one column a series is always kept. *)
Theorem select_price_raises (df : Response) (e : exn) :
  select_price df = Raise e <->
  e = IndexError /\
  (exists idx, df = MultiLevel idx [] \/ df = SingleLevel idx []).
Proof.
  split.
  - destruct df as [idx cols | idx cols]; unfold select_price.
    + destruct (existsb (String.eqb "Close") (map fst cols)) eqn:E1.
      { apply existsb_label in E1.
        destruct (column_of_some String.eqb String.eqb_eq cols "Close" E1) as [v Hv].
        unfold response_getitem. rewrite Hv. discriminate. }
      destruct (existsb (String.eqb "Adj Close") (map fst cols)) eqn:E2.
      { apply existsb_label in E2.
        destruct (column_of_some String.eqb String.eqb_eq cols "Adj Close" E2) as [v Hv].
        unfold response_getitem. rewrite Hv. discriminate. }
      destruct cols as [|[k v] cols]; simpl; [|discriminate].
      intros H. inversion H. split; [reflexivity|]. exists idx. now right.
    + destruct (filter (fun col => contains "Close" (fst col)) (map fst cols))
        as [|key keys] eqn:E.
      * destruct cols as [|[k v] cols]; simpl; [|discriminate].
        intros H. inversion H. split; [reflexivity|]. exists idx. now left.
      * assert (Hin : In key (map fst cols)).
        { assert (H : In key (key :: keys)) by now left.
          rewrite <- E in H. now apply filter_In in H. }
        destruct (column_of_some key2_eqb key2_eqb_eq cols key Hin) as [v Hv].
        unfold response_getitem. rewrite Hv. discriminate.
  - intros [-> [idx [-> | ->]]]; reflexivity.
Qed.

End SelectProperties.

Section SelectExamples.

Local Open Scope string_scope.

(** The adjusted close, placed first, is the column kept. *)
Lemma select_price_adj_close_first :
  (contains "Close" "Adj Close" = true /\
   forall k', In k' (map fst (@nil ((string * string) * list float))) ->
              contains "Close" (fst k') = false) /\
  select_price response_adj_first = Ok [(jan 1, 1%float); (jan 2, 2%float)].
Proof.
  assert (Hk : contains "Close" (fst ("Adj Close", "ACWI")) = true) by reflexivity.
  assert (Hpre : forall k', In k' (map fst (@nil ((string * string) * list float))) ->
                            contains "Close" (fst k') = false) by (intros k' []).
  split; [split; [exact Hk | exact Hpre]|].
  exact (select_price_first_close_label [jan 1; jan 2] []
           [(("Close", "ACWI"), [3; 4]%float)] ("Adj Close", "ACWI") [1; 2]%float
           Hk Hpre).
Defined.

End SelectExamples.

(** ** More on [process_data] *)

Section JoinAny.

Local Open Scope string_scope.

Lemma has_column_In (c : string) (df : DataFrame) :
  has_column c df = true <-> In c (columns df).
Proof. unfold has_column. apply existsb_label. Qed.

(** Assigning a series with distinct labels never raises. *)
Lemma setitem_unique (df : DataFrame) (c : string) (s : Series) :
  NoDup (s_index s) ->
  exists R,
    setitem df c s =
    Ok (mkDF (if has_column c df then columns df else columns df ++ [c])%list R).
Proof.
  intros Hnd. unfold setitem.
  assert (Hcols : columns (ensure_valid_index df s) = columns df).
  { unfold ensure_valid_index. destruct (rows df); [destruct s|]; reflexivity. }
  assert (Hvals : exists vals, reindex_for_setitem s (ensure_valid_index df s) = Ok vals).
  { unfold reindex_for_setitem.
    destruct (index_equals _ _ || _); [eauto|].
    rewrite (proj2 (is_unique_NoDup _) Hnd). eauto. }
  destruct Hvals as [vals Hvals]. rewrite Hvals. cbn [bind].
  unfold set_column, has_column. rewrite Hcols. eauto.
Qed.

Lemma join_loop_columns (data : Dict Series) :
  (forall k s, In (k, s) data -> NoDup (s_index s)) ->
  forall df, exists df',
    join_loop data df = Ok df' /\
    forall c, In c (columns df') <-> In c (columns df) \/ In c (map fst data).
Proof.
  induction data as [|[k s] data IH]; intros Hnd df.
  - exists df. split; [reflexivity|]. simpl. tauto.
  - cbn [join_loop].
    destruct (setitem_unique df k s) as [R HR].
    { apply (Hnd k). now left. }
    rewrite HR. cbn [bind].
    destruct (IH (fun k' s' H => Hnd k' s' (or_intror H))
                 (mkDF (if has_column k df then columns df else columns df ++ [k])%list R))
      as [df' [Hj Hc]].
    exists df'. split; [exact Hj|].
    intros c. rewrite Hc. cbn [columns map fst].
    destruct (has_column k df) eqn:E.
    + apply has_column_In in E. simpl. split; [tauto|].
      intros [H | [<- | H]]; tauto.
    + rewrite in_app_iff. simpl. tauto.
Qed.

Lemma existsb_added (c c' : string) (cols : list string) :
  c <> c' ->
  existsb (String.eqb c) (if existsb (String.eqb c') cols then cols else cols ++ [c'])%list
  = existsb (String.eqb c) cols.
Proof.
  intros Hne. destruct (existsb (String.eqb c') cols); [reflexivity|].
  rewrite existsb_app. simpl.
  destruct (String.eqb_spec c c'); [contradiction|].
  now rewrite !orb_false_r.
Qed.

Lemma getitem_mk (cols : list string) (R : list (Timestamp * Row)) (c : string) :
  getitem (mkDF cols R) c =
  if existsb (String.eqb c) cols
  then Ok (map (fun tr => (fst tr, row_val c (snd tr))) R)
  else Raise (KeyError c).
Proof. reflexivity. Qed.

(** X5.  [process_data] needs all four symbols: on a dictionary of
    series with distinct dates that lacks one of [acwi], [fang],
    [nikkei], [usdjpy] it raises the key error of a field that is
    lacking. *)
Theorem process_data_missing_symbol (data : Dict Series) (c : string) :
  (forall k s, In (k, s) data -> NoDup (s_index s)) ->
  In c FIELDS -> ~ In c (map fst data) ->
  exists k,
    In k FIELDS /\ ~ In k (map fst data) /\
    process_table data = Raise (KeyError k).
Proof.
  intros Hnd Hc Hmiss.
  destruct (join_loop_columns data Hnd empty_frame) as [df' [Hj Hcols]].
  assert (Hkeys : forall k, existsb (String.eqb k) (columns df') = true ->
                            In k (map fst data)).
  { intros k Hk. apply existsb_label in Hk. apply Hcols in Hk as [[] | Hk]. exact Hk. }
  unfold process_table. rewrite Hj. cbn [bind].
  unfold sort_index, ffill. cbn [columns rows].
  set (R := ffill_rows [] (sort_rows (rows df'))).
  set (cols := columns df') in *.
  rewrite getitem_mk.
  destruct (existsb (String.eqb "acwi") cols) eqn:Ea; cbn [bind].
  2:{ exists "acwi". split; [simpl; tauto|]. split; [|reflexivity].
      intros H. assert (H' : In "acwi" cols) by (apply Hcols; now right).
      apply existsb_label in H'. congruence. }
  rewrite getitem_mk.
  destruct (existsb (String.eqb "usdjpy") cols) eqn:Eu; cbn [bind].
  2:{ exists "usdjpy". split; [simpl; tauto|]. split; [|reflexivity].
      intros H. assert (H' : In "usdjpy" cols) by (apply Hcols; now right).
      apply existsb_label in H'. congruence. }
  rewrite (s_mul_aligned fst), setitem_aligned. cbn [bind].
  rewrite getitem_mk, existsb_added by discriminate.
  destruct (existsb (String.eqb "fang") cols) eqn:Ef; cbn [bind].
  2:{ exists "fang". split; [simpl; tauto|]. split; [|reflexivity].
      intros H. assert (H' : In "fang" cols) by (apply Hcols; now right).
      apply existsb_label in H'. congruence. }
  rewrite getitem_mk, existsb_added, Eu by discriminate. cbn [bind].
  rewrite (s_mul_aligned fst), setitem_aligned. cbn [bind].
  rewrite getitem_mk, !existsb_added by discriminate.
  destruct (existsb (String.eqb "nikkei") cols) eqn:En; cbn [bind].
  2:{ exists "nikkei". split; [simpl; tauto|]. split; [|reflexivity].
      intros H. assert (H' : In "nikkei" cols) by (apply Hcols; now right).
      apply existsb_label in H'. congruence. }
  exfalso. apply Hmiss. unfold FIELDS in Hc. simpl in Hc.
  destruct Hc as [<-|[<-|[<-|[<-|[]]]]]; now apply Hkeys.
Qed.

End JoinAny.

Section OrderAndGaps.

Local Open Scope string_scope.

Lemma s_find_absent (s : Series) (t : Timestamp) :
  ~ In t (s_index s) -> s_find t s = None.
Proof.
  induction s as [|[k x] s IH]; simpl; intros H; [reflexivity|].
  destruct (Z.eqb_spec k t) as [->|Hne]; [exfalso; apply H; now left|].
  apply IH. intros Hin. apply H. now right.
Qed.

(** The value at a date does not depend on the order of the entries. *)
Lemma s_at_perm (s s' : Series) (t : Timestamp) :
  NoDup (s_index s) -> Permutation s s' -> s_at s t = s_at s' t.
Proof.
  intros Hnd Hp.
  assert (Hnd' : NoDup (s_index s')).
  { eapply Permutation_NoDup; [|exact Hnd]. now apply Permutation_map. }
  unfold s_at. destruct (s_find t s) as [v|] eqn:E.
  - apply s_find_Some_In in E.
    rewrite (s_find_In s' t v Hnd'); [reflexivity|].
    eapply Permutation_in; eauto.
  - rewrite s_find_absent; [reflexivity|].
    intros Hin. unfold s_index in Hin.
    apply in_map_iff in Hin as [[t' v] [Heq Hin]]. simpl in Heq. subst t'.
    apply (Permutation_in _ (Permutation_sym Hp)) in Hin.
    rewrite (s_find_In s t v Hnd Hin) in E. discriminate.
Qed.

Lemma filled_ext (idx idx' : list Timestamp) (s s' : Series) (t : Timestamp) (v : float) :
  (forall x, In x idx <-> In x idx') ->
  (forall x, s_at s x = s_at s' x) ->
  filled idx s t v -> filled idx' s' t v.
Proof.
  intros Hidx Hs [[t' [Hin [Hle [Hobs [Hv Hmax]]]]] | [Hv Hnone]].
  - left. exists t'. unfold observed in *. repeat split.
    + now apply Hidx.
    + exact Hle.
    + now rewrite <- Hs.
    + now rewrite <- Hs.
    + intros t'' Hin'' Hle'' Hobs''. apply Hmax; [now apply Hidx | exact Hle''|].
      now rewrite Hs.
  - right. split; [exact Hv|]. intros t' Hin' Hle' Hobs'. unfold observed in *.
    apply (Hnone t'); [now apply Hidx | exact Hle'|]. now rewrite Hs.
Qed.

(** Two lists of rows with strictly ascending dates and the same rows are
    the same list. *)
Lemma sorted_rows_ext (l1 l2 : list (Timestamp * Row)) :
  StronglySorted Z.lt (map fst l1) -> StronglySorted Z.lt (map fst l2) ->
  (forall x, In x l1 <-> In x l2) -> l1 = l2.
Proof.
  revert l2. induction l1 as [|x l1 IH]; intros [|y l2] H1 H2 Hin.
  - reflexivity.
  - exfalso. apply (Hin y). now left.
  - exfalso. apply (Hin x). now left.
  - simpl in H1, H2.
    inversion H1 as [|? ? Hs1 Hx]; subst. inversion H2 as [|? ? Hs2 Hy]; subst.
    rewrite Forall_forall in Hx, Hy.
    assert (Hlt1 : forall z, In z l1 -> fst x < fst z)
      by (intros z Hz; apply Hx; now apply in_map).
    assert (Hlt2 : forall z, In z l2 -> fst y < fst z)
      by (intros z Hz; apply Hy; now apply in_map).
    assert (Hxy : x = y).
    { destruct (proj1 (Hin x) (or_introl eq_refl)) as [E | Hx2]; [now symmetry|].
      destruct (proj2 (Hin y) (or_introl eq_refl)) as [E | Hy1]; [exact E|].
      specialize (Hlt1 _ Hy1). specialize (Hlt2 _ Hx2). lia. }
    subst y. f_equal. apply IH; auto.
    intros z. split; intros Hz.
    + destruct (proj1 (Hin z) (or_intror Hz)) as [E | Hz2]; [|exact Hz2].
      subst z. specialize (Hlt1 _ Hz). lia.
    + destruct (proj2 (Hin z) (or_intror Hz)) as [E | Hz1]; [|exact Hz1].
      subst z. specialize (Hlt2 _ Hz). lia.
Qed.

Lemma valid_series_perm (s s' : Series) :
  valid_series s -> Permutation s s' -> valid_series s'.
Proof.
  intros [Hne Hnd] Hp. split.
  - intros ->. apply Permutation_sym, Permutation_nil in Hp. contradiction.
  - eapply Permutation_NoDup; [|exact Hnd]. now apply Permutation_map.
Qed.

Lemma aligned_rows_perm_incl (sa sf sn su sa' sf' sn' su' : Series) :
  valid_series sa -> valid_series sf -> valid_series sn -> valid_series su ->
  Permutation sa sa' -> Permutation sf sf' -> Permutation sn sn' -> Permutation su su' ->
  forall x, In x (aligned_rows sa sf sn su) -> In x (aligned_rows sa' sf' sn' su').
Proof.
  intros Va Vf Vn Vu Pa Pf Pn Pu [t r] Hin.
  assert (Va' : valid_series sa') by exact (valid_series_perm sa sa' Va Pa).
  assert (Hidx : forall x, In x (s_index sa) <-> In x (s_index sa')).
  { intros x. split; apply Permutation_in; [|symmetry]; now apply Permutation_map. }
  destruct (aligned_rows_sound sa sf sn su Va t r Hin)
    as [Ht [Hc [a [f [n [u [Ha [Hf [Hn [Hu ->]]]]]]]]]].
  apply (aligned_rows_complete sa' sf' sn' su' Va'); auto.
  - now apply Hidx.
  - eapply filled_ext; [exact Hidx | | exact Ha]. intros x. apply s_at_perm; [apply Va | exact Pa].
  - eapply filled_ext; [exact Hidx | | exact Hf]. intros x. apply s_at_perm; [apply Vf | exact Pf].
  - eapply filled_ext; [exact Hidx | | exact Hn]. intros x. apply s_at_perm; [apply Vn | exact Pn].
  - eapply filled_ext; [exact Hidx | | exact Hu]. intros x. apply s_at_perm; [apply Vu | exact Pu].
Qed.

(** X6.  The table does not depend on the order in which the entries of
    the raw series are stored: four valid series and any reordering of
    them give the same table. *)
Theorem process_data_order_insensitive (sa sf sn su sa' sf' sn' su' : Series) :
  valid_series sa -> valid_series sf -> valid_series sn -> valid_series su ->
  Permutation sa sa' -> Permutation sf sf' -> Permutation sn sn' -> Permutation su su' ->
  exists out,
    process_table (raw_data sa sf sn su) = Ok out /\
    process_table (raw_data sa' sf' sn' su') = Ok out.
Proof.
  intros Va Vf Vn Vu Pa Pf Pn Pu.
  assert (Va' : valid_series sa') by exact (valid_series_perm sa sa' Va Pa).
  assert (Vf' : valid_series sf') by exact (valid_series_perm sf sf' Vf Pf).
  assert (Vn' : valid_series sn') by exact (valid_series_perm sn sn' Vn Pn).
  assert (Vu' : valid_series su') by exact (valid_series_perm su su' Vu Pu).
  exists (mkDF FIELDS (aligned_rows sa sf sn su)). split.
  - now apply process_table_raw_data.
  - rewrite (process_table_raw_data sa' sf' sn' su' Va' Vf' Vn' Vu').
    do 2 f_equal. symmetry. apply sorted_rows_ext.
    + now apply aligned_rows_sorted.
    + now apply aligned_rows_sorted.
    + intros x. split.
      * now apply aligned_rows_perm_incl.
      * apply aligned_rows_perm_incl; auto using Permutation_sym.
Qed.

(** X7.  Without gaps nothing is filled and nothing is dropped: when each
    of the four valid series has an observation on every date of the
    first, and the two products are numbers there, the table has exactly
    the dates of the first series, and the row of a date holds the values
    of that date, acwi and fang multiplied by the exchange rate of that
    date. *)
Theorem process_data_gapless (sa sf sn su : Series) (w : World) :
  valid_series sa -> valid_series sf -> valid_series sn -> valid_series su ->
  gapless sa sf sn su ->
  (forall t, In t (s_index sa) ->
     is_nan (s_at sa t * s_at su t) = false /\ is_nan (s_at sf t * s_at su t) = false) ->
  exists w' out,
    process_data (raw_data sa sf sn su) w = (w', Ok out) /\
    Permutation (df_index out) (s_index sa) /\
    len out = List.length sa /\
    forall t r, In (t, r) (rows out) -> r = raw_row sa sf sn su t.
Proof.
  intros Va Vf Vn Vu Hgap Hprod.
  eexists. eexists. split; [apply process_data_run; now apply process_table_raw_data|].
  cbn [rows].
  assert (Hrow : forall t, In t (s_index sa) ->
                   In (t, raw_row sa sf sn su t) (aligned_rows sa sf sn su)).
  { intros t Hin. destruct (Hgap t Hin) as [Oa [Of [On Ou]]].
    destruct (Hprod t Hin) as [Pa Pf].
    apply (aligned_rows_complete sa sf sn su Va); auto using filled_observed.
    apply row4_complete. auto. }
  assert (Hperm : Permutation (df_index (mkDF FIELDS (aligned_rows sa sf sn su)))
                              (s_index sa)).
  { apply NoDup_Permutation.
    - apply sorted_NoDup. now apply aligned_rows_sorted.
    - apply Va.
    - intros t. unfold df_index. cbn [rows]. split.
      + intros Hin. apply in_map_iff in Hin as [[t' r] [Heq Hin]]. simpl in Heq. subst t'.
        now apply (aligned_rows_sound sa sf sn su Va) in Hin.
      + intros Hin. apply in_map_iff. exists (t, raw_row sa sf sn su t).
        split; [reflexivity | now apply Hrow]. }
  split; [exact Hperm|]. split.
  - apply Permutation_length in Hperm. unfold df_index, s_index in Hperm.
    rewrite !length_map in Hperm. exact Hperm.
  - intros t r Hin.
    destruct (aligned_rows_sound sa sf sn su Va t r Hin)
      as [Ht [_ [a [f [n [u [Ha [Hf [Hn [Hu ->]]]]]]]]]].
    destruct (Hgap t Ht) as [Oa [Of [On Ou]]].
    rewrite (filled_unique _ _ _ _ _ Ha (filled_observed _ sa t Ht Oa)).
    rewrite (filled_unique _ _ _ _ _ Hf (filled_observed _ sf t Ht Of)).
    rewrite (filled_unique _ _ _ _ _ Hn (filled_observed _ sn t Ht On)).
    rewrite (filled_unique _ _ _ _ _ Hu (filled_observed _ su t Ht Ou)).
    reflexivity.
Qed.

End OrderAndGaps.

(** ** More on [save_to_json] *)

Section SaveProperties.

Local Open Scope string_scope.

Lemma read_put_other (p path : string) (doc : OutputDocument)
  (fs : list (string * OutputDocument)) :
  p <> path -> read_file p (put_file path doc fs) = read_file p fs.
Proof.
  intros Hne. induction fs as [|[q d] fs IH]; simpl.
  - destruct (String.eqb_spec path p); [congruence | reflexivity].
  - destruct (String.eqb_spec q path) as [->|Hq]; simpl.
    + destruct (String.eqb_spec path p); [congruence | reflexivity].
    + destruct (String.eqb q p); [reflexivity | exact IH].
Qed.

Lemma with_output_dir_spec (ds : list string) :
  In OUTPUT_DIR (with_output_dir ds) /\
  (forall d, In d ds -> In d (with_output_dir ds)) /\
  (forall d, In d (with_output_dir ds) -> In d ds \/ d = OUTPUT_DIR) /\
  (In OUTPUT_DIR ds -> with_output_dir ds = ds).
Proof.
  unfold with_output_dir.
  destruct (existsb (String.eqb OUTPUT_DIR) ds) eqn:E.
  - apply existsb_label in E. repeat split; auto.
  - repeat split.
    + apply in_or_app. right. now left.
    + intros d Hd. apply in_or_app. now left.
    + intros d Hd. apply in_app_or in Hd as [Hd | [<- | []]]; auto.
    + intros H. apply existsb_label in H. congruence.
Qed.

(** X8.  [save_to_json] touches one file only: whatever the table and the
    outcome, every other file is as before, the directory [data] exists
    afterwards and no other directory is made (none at all when [data]
    was there); when it returns, the path is [data/index_data.json] and
    the file holds the new document, whatever it held before. *)
Theorem save_to_json_only_output (df : DataFrame) (w : World) :
  (forall p, p <> filepath ->
     read_file p (files (fst (save_to_json df w))) = read_file p (files w)) /\
  In OUTPUT_DIR (dirs (fst (save_to_json df w))) /\
  (forall d, In d (dirs (fst (save_to_json df w))) <-> In d (dirs w) \/ d = OUTPUT_DIR) /\
  (In OUTPUT_DIR (dirs w) -> dirs (fst (save_to_json df w)) = dirs w) /\
  (forall path, snd (save_to_json df w) = Ok path ->
     path = filepath /\
     exists doc, document_of (clock w) df = Ok doc /\
                 read_file filepath (files (fst (save_to_json df w))) = Some doc).
Proof.
  rewrite save_to_json_run.
  destruct (with_output_dir_spec (dirs w)) as [Hin [Hkeep [Honly Hsame]]].
  destruct (document_of (clock w) df) as [doc|e]; cbn [fst snd files dirs].
  - repeat split; auto.
    + intros p Hp. now apply read_put_other.
    + intros [Hd | ->]; auto.
    + inversion H. reflexivity.
    + exists doc. split; [reflexivity | apply read_put_file].
  - repeat split; auto; try discriminate.
    intros [Hd | ->]; auto.
Qed.

Lemma record_of_row_ok (t : Timestamp) (r : Row) (rec : DataRecord) :
  record_of_row t r = Ok rec ->
  date rec = strftime_ymd t /\ forall c, In c FIELDS -> row_find c r <> None.
Proof.
  unfold record_of_row, row_getitem.
  destruct (row_find "acwi" r) as [a|] eqn:Ea; cbn [bind]; [|discriminate].
  destruct (row_find "fang" r) as [f|] eqn:Ef; cbn [bind]; [|discriminate].
  destruct (row_find "nikkei" r) as [n|] eqn:En;
    [|destruct (notna f); cbn [bind]; discriminate].
  destruct (row_find "usdjpy" r) as [u|] eqn:Eu;
    [|destruct (notna f); cbn [bind]; discriminate].
  intros H.
  assert (Hd : date rec = strftime_ymd t)
    by (destruct (notna f); cbn [bind] in H; inversion H; reflexivity).
  split; [exact Hd|].
  intros c Hc. unfold FIELDS in Hc. simpl in Hc.
  destruct Hc as [<-|[<-|[<-|[<-|[]]]]]; congruence.
Qed.

Lemma records_of_rows_ok (rs : list (Timestamp * Row)) (acc recs : list DataRecord) :
  records_of_rows rs acc = Ok recs ->
  map date recs = (map date acc ++ map strftime_ymd (map fst rs))%list /\
  forall t r, In (t, r) rs -> forall c, In c FIELDS -> row_find c r <> None.
Proof.
  revert acc. induction rs as [|[t r] rs IH]; intros acc; simpl.
  - intros H. inversion H; subst. rewrite app_nil_r. split; [reflexivity|]. intros ? ? [].
  - destruct (record_of_row t r) as [rec|e] eqn:E; cbn [bind]; [|discriminate].
    intros H. destruct (IH _ H) as [Hd Hf].
    destruct (record_of_row_ok t r rec E) as [Hdate Hfields].
    split.
    + rewrite Hd, map_app, <- app_assoc. simpl. now rewrite Hdate.
    + intros t' r' [Heq | Hin]; [inversion Heq; subst; exact Hfields | eauto].
Qed.

(** X9.  A document [save_to_json] wrote is consistent with itself and
    with the table, whatever the columns of the table: [total_records]
    is the length of [data], the records are dated by the rows in their
    order, [start_date] is the date of the first record and [end_date]
    the date of the last. *)
Theorem save_to_json_consistent (df : DataFrame) (w : World) (path : string) :
  snd (save_to_json df w) = Ok path ->
  exists doc,
    read_file path (files (fst (save_to_json df w))) = Some doc /\
    total_records (metadata doc) = List.length (data doc) /\
    map date (data doc) = map strftime_ymd (df_index df) /\
    hd_error (map date (data doc)) = Some (start_date (metadata doc)) /\
    last (map date (data doc)) "" = end_date (metadata doc).
Proof.
  rewrite save_to_json_run. unfold document_of.
  destruct (index_first df) as [first|e] eqn:E1; cbn [bind]; [|discriminate].
  destruct (index_last df) as [last|e] eqn:E2; cbn [bind]; [|discriminate].
  destruct (records_of_rows (rows df) []) as [recs|e] eqn:E3; cbn [bind]; [|discriminate].
  cbn [fst snd files]. intros H. inversion H; subst path.
  eexists. split; [apply read_put_file|].
  cbn [metadata data total_records start_date end_date].
  destruct (records_of_rows_ok _ _ _ E3) as [Hd _]. simpl in Hd.
  fold (df_index df) in Hd.
  repeat split.
  - unfold len. apply (f_equal (@List.length _)) in Hd.
    unfold df_index in Hd. now rewrite !length_map in Hd.
  - exact Hd.
  - rewrite Hd. unfold index_first in E1.
    destruct (df_index df); [discriminate|]. inversion E1. reflexivity.
  - rewrite Hd. unfold index_last in E2.
    destruct (rev (df_index df)) as [|t l] eqn:Er; [discriminate|].
    inversion E2; subst t.
    apply (f_equal (@rev _)) in Er. rewrite rev_involutive in Er. simpl in Er.
    rewrite Er, map_app. simpl. apply last_last.
Qed.

(** X10.  A table with a row that lacks one of the four fields is not
    written: [save_to_json] raises a key error and leaves every file as
    it was. *)
Theorem save_to_json_missing_field (df : DataFrame) (w : World)
  (t : Timestamp) (r : Row) (c : string) :
  In (t, r) (rows df) -> In c FIELDS -> row_find c r = None ->
  exists k,
    snd (save_to_json df w) = Raise (KeyError k) /\
    files (fst (save_to_json df w)) = files w.
Proof.
  intros Hin Hc Hnone. rewrite save_to_json_run. unfold document_of.
  assert (Hrows : rows df <> []) by (intros E; rewrite E in Hin; contradiction).
  rewrite (index_last_nonempty df t Hrows).
  unfold index_first, df_index.
  destruct (rows df) as [|[t0 r0] rest] eqn:Er; [contradiction|]. cbn [map fst bind].
  destruct (records_of_rows ((t0, r0) :: rest) []) as [recs|e] eqn:E3; cbn [bind].
  - destruct (records_of_rows_ok _ _ _ E3) as [_ Hf].
    exfalso. apply (Hf t r Hin c Hc Hnone).
  - apply records_of_rows_error in E3 as [k ->]. exists k. split; reflexivity.
Qed.

(** X11.  What [process_data] returns is written without a null: when
    the table of four valid series is saved, the four numeric fields of
    every record are numbers, the converted values rounded to two
    decimals. *)
Theorem pipeline_records_are_numbers (sa sf sn su : Series) (w w1 w2 : World)
  (out : DataFrame) (path : string) :
  valid_series sa -> valid_series sf -> valid_series sn -> valid_series su ->
  process_data (raw_data sa sf sn su) w = (w1, Ok out) ->
  save_to_json out w1 = (w2, Ok path) ->
  exists doc,
    read_file path (files w2) = Some doc /\
    data doc = map row_record (rows out) /\
    forall rec, In rec (data doc) ->
      exists t a f n u,
        In (t, row4 a f n u) (rows out) /\
        rec = mkRecord (strftime_ymd t) (JNumber (round2 a)) (JNumber (round2 f))
                       (JNumber (round2 n)) (JNumber (round2 u)).
Proof.
  intros Va Vf Vn Vu Hproc Hsave.
  rewrite (process_data_run _ _ w (process_table_raw_data sa sf sn su Va Vf Vn Vu)) in Hproc.
  inversion Hproc; subst w1 out. clear Hproc.
  assert (Hshape : Forall is_row4 (rows (mkDF FIELDS (aligned_rows sa sf sn su)))).
  { apply Forall_forall. intros [t r] Hin. cbn [rows] in Hin.
    destruct (aligned_rows_sound sa sf sn su Va t r Hin)
      as [_ [_ [a [f [n [u [_ [_ [_ [_ ->]]]]]]]]]].
    unfold is_row4. simpl. eauto. }
  remember (aligned_rows sa sf sn su) as A eqn:EA.
  destruct A as [|[t0 r0] rest].
  { rewrite save_to_json_run in Hsave. discriminate. }
  rewrite save_to_json_run in Hsave.
  rewrite (document_of_row4 _ (mkDF FIELDS ((t0, r0) :: rest)) t0 r0 rest eq_refl Hshape)
    in Hsave.
  inversion Hsave; subst w2 path. clear Hsave.
  eexists. cbn [files]. split; [apply read_put_file|].
  cbn [data rows]. split; [reflexivity|].
  intros rec Hrec.
  change (In rec (map row_record ((t0, r0) :: rest))) in Hrec.
  apply in_map_iff in Hrec as [[t r] [<- Hin]].
  assert (Hin' : In (t, r) (aligned_rows sa sf sn su)) by (rewrite <- EA; exact Hin).
  destruct (aligned_rows_sound sa sf sn su Va t r Hin')
    as [_ [Hc [a [f [n [u [_ [_ [_ [_ ->]]]]]]]]]].
  exists t, (a * u)%float, (f * u)%float, n, u. split; [exact Hin|].
  apply row4_complete in Hc as [_ [Hf _]].
  unfold row_record. cbn. unfold notna. rewrite Hf. reflexivity.
Qed.

End SaveProperties.

(** ** The reporter *)

Section Reporter.

Local Open Scope string_scope.

Lemma printed_nil (w : World) : printed [] w = w.
Proof. unfold printed. rewrite app_nil_r. now destruct w. Qed.

Lemma only_prints_print (l : Line) : only_prints (print l).
Proof. intros w. exists [l], (Ok tt). apply print_printed. Qed.

Lemma only_prints_ret {A : Type} (a : A) : only_prints (ret a).
Proof. intros w. exists [], (Ok a). now rewrite printed_nil. Qed.

Lemma only_prints_lift {A : Type} (r : result A) : only_prints (lift r).
Proof. intros w. exists [], r. now rewrite printed_nil. Qed.

Lemma only_prints_bind {A B : Type} (m : M A) (k : A -> M B) :
  only_prints m -> (forall a, only_prints (k a)) -> only_prints (bindM m k).
Proof.
  intros Hm Hk w. unfold bindM.
  destruct (Hm w) as [l1 [r1 H1]]. rewrite H1.
  destruct r1 as [a|e]; [|eauto].
  destruct (Hk a (printed l1 w)) as [l2 [r2 H2]].
  rewrite H2, printed_app. eauto.
Qed.

Ltac only_prints_tac :=
  repeat first
    [ apply only_prints_print
    | apply only_prints_ret
    | apply only_prints_lift
    | apply only_prints_bind; [|intros ?] ].

Lemma summary_of_prints (df : DataFrame) (c : string) : only_prints (summary_of df c).
Proof.
  unfold summary_of. apply only_prints_bind; [apply only_prints_lift|].
  intros s. destruct (s_dropna s) as [|[first v] vd]; [apply only_prints_ret|].
  destruct (rev ((first, v) :: vd)) as [|[last latest] rv]; [apply only_prints_ret|].
  only_prints_tac.
Qed.

(** [show_summary] only prints, whatever its outcome. *)
Lemma show_summary_prints (df : DataFrame) : only_prints (show_summary df).
Proof.
  unfold show_summary.
  do 3 (apply only_prints_bind; [apply only_prints_print | intros _]).
  do 2 (apply only_prints_bind; [apply summary_of_prints | intros _]).
  apply summary_of_prints.
Qed.

(** A fold that keeps one of its two arguments at each step returns an
    element of the list it ran over. *)
Lemma fold_pick_In (p : float -> float -> bool) (vs : list float) (v : float) :
  In (fold_left (fun a b => if p a b then b else a) vs v) (v :: vs).
Proof.
  revert v. induction vs as [|x vs IH]; intros v; simpl; [now left|].
  destruct (p v x).
  - right. apply IH.
  - destruct (IH v) as [H | H]; [left; exact H | right; right; exact H].
Qed.

Lemma s_dropna_complete (s : Series) :
  Forall (fun tv => is_nan (snd tv) = false) s -> s_dropna s = s.
Proof.
  induction 1 as [|[t v] s Hv _ IH]; simpl; [reflexivity|].
  simpl in Hv. unfold notna. rewrite Hv. simpl. now rewrite IH.
Qed.

Lemma s_dropna_missing (s : Series) :
  Forall (fun tv => is_nan (snd tv) = true) s -> s_dropna s = [].
Proof.
  induction 1 as [|[t v] s Hv _ IH]; simpl; [reflexivity|].
  simpl in Hv. unfold notna. rewrite Hv. simpl. exact IH.
Qed.

Lemma complete_column (df : DataFrame) (c : string) :
  complete_table df -> In c FIELDS ->
  Forall (fun tv => is_nan (snd tv) = false) (column c df).
Proof.
  intros [_ [Hshape Hcomp]] Hc. unfold column.
  apply Forall_forall. intros tv Hin.
  apply in_map_iff in Hin as [[t r] [<- Hin]]. simpl.
  rewrite Forall_forall in Hshape, Hcomp.
  destruct (Hshape _ Hin) as [a [f [n [u Hr]]]]. simpl in Hr. subst r.
  specialize (Hcomp _ Hin). simpl in Hcomp.
  apply row4_complete in Hcomp as [Ha [Hf [Hn Hu]]].
  unfold FIELDS in Hc. simpl in Hc.
  destruct Hc as [<-|[<-|[<-|[<-|[]]]]]; assumption.
Qed.

Lemma summary_of_column (df : DataFrame) (c : string) (w : World) :
  has_column c df = true ->
  summary_of df c w =
  match s_dropna (column c df), rev (s_dropna (column c df)) with
  | (first, _) :: _, (last, latest) :: _ =>
      (print (LSummaryHead c) ;;;
       print (LSummaryPeriod (strftime_ymd first) (strftime_ymd last)) ;;;
       print (LSummaryCount (List.length (s_dropna (column c df)))) ;;;
       print (LSummaryMin (s_min (s_dropna (column c df)))) ;;;
       print (LSummaryMax (s_max (s_dropna (column c df)))) ;;;
       print (LSummaryLatest latest)) w
  | _, _ => (w, Ok tt)
  end.
Proof.
  intros Hhas. unfold summary_of, getitem. rewrite Hhas.
  unfold bindM at 1, lift. fold (column c df).
  destruct (s_dropna (column c df)) as [|[first v] vd]; [reflexivity|].
  destruct (rev ((first, v) :: vd)) as [|[last latest] rv]; reflexivity.
Qed.

Lemma print_six (a b c d e f : Line) (w : World) :
  (print a ;;; print b ;;; print c ;;; print d ;;; print e ;;; print f) w
  = (printed [a; b; c; d; e; f] w, Ok tt).
Proof.
  unfold bindM. rewrite !print_printed, !printed_app. reflexivity.
Qed.

Lemma summary_of_complete (df : DataFrame) (c : string) (w : World)
  (t0 t1 : Timestamp) (r0 r1 : Row) (rest : list (Timestamp * Row)) :
  complete_table df -> In c FIELDS ->
  rows df = (t0, r0) :: rest -> last (rows df) (t0, r0) = (t1, r1) ->
  summary_of df c w = (printed (summary_block df c t0 t1 r1) w, Ok tt).
Proof.
  intros Hct Hc Hrows Hlast.
  assert (Hhas : has_column c df = true).
  { apply has_column_In. destruct Hct as [-> _]. exact Hc. }
  rewrite (summary_of_column df c w Hhas).
  rewrite (s_dropna_complete _ (complete_column df c Hct Hc)).
  assert (Hrev : rev (column c df)
                 = (t1, row_val c r1)
                   :: rev (map (fun tr => (fst tr, row_val c (snd tr)))
                               (removelast (rows df)))).
  { unfold column.
    rewrite (app_removelast_last (t0, r0) (l := rows df)) at 1
      by (rewrite Hrows; discriminate).
    rewrite Hlast, map_app, rev_app_distr. reflexivity. }
  assert (Hcol : column c df
                 = (t0, row_val c r0) :: map (fun tr => (fst tr, row_val c (snd tr))) rest).
  { unfold column. rewrite Hrows. reflexivity. }
  assert (Hlen : List.length (column c df) = len df).
  { unfold column, len. apply length_map. }
  rewrite Hrev, Hlen. rewrite Hcol at 1.
  rewrite print_six. reflexivity.
Qed.

Lemma show_summary_table (df : DataFrame) (w : World)
  (t0 t1 : Timestamp) (r0 r1 : Row) (rest : list (Timestamp * Row)) :
  complete_table df ->
  rows df = (t0, r0) :: rest -> last (rows df) (t0, r0) = (t1, r1) ->
  show_summary df w =
  (printed ([LRule "-" 50; LSummaryTitle; LRule "-" 50]
            ++ summary_block df "acwi" t0 t1 r1
            ++ summary_block df "fang" t0 t1 r1
            ++ summary_block df "nikkei" t0 t1 r1) w,
   Ok tt).
Proof.
  intros Hct Hrows Hlast. unfold show_summary, bindM.
  rewrite !print_printed.
  rewrite (summary_of_complete df "acwi" _ t0 t1 r0 r1 rest Hct) by (simpl; tauto).
  rewrite (summary_of_complete df "fang" _ t0 t1 r0 r1 rest Hct) by (simpl; tauto).
  rewrite (summary_of_complete df "nikkei" _ t0 t1 r0 r1 rest Hct) by (simpl; tauto).
  rewrite !printed_app. reflexivity.
Qed.

End Reporter.

Section ReporterProperties.

Local Open Scope string_scope.

(** X12.  For a table of the four fields without a missing value and
    with at least one row, [show_summary] returns after printing its
    three header lines and then one block for each of [acwi], [fang] and
    [nikkei] (none for [usdjpy]); every block reports the first and the
    last date of the table, a count equal to the number of rows, and as
    latest value the value in the last row; the minimum and the maximum
    it reports are values of the column. *)
Theorem show_summary_complete (df : DataFrame) (w : World)
  (t0 t1 : Timestamp) (r0 r1 : Row) (rest : list (Timestamp * Row)) :
  complete_table df ->
  rows df = (t0, r0) :: rest -> last (rows df) (t0, r0) = (t1, r1) ->
  show_summary df w =
  (printed ([LRule "-" 50; LSummaryTitle; LRule "-" 50]
            ++ summary_block df "acwi" t0 t1 r1
            ++ summary_block df "fang" t0 t1 r1
            ++ summary_block df "nikkei" t0 t1 r1) w,
   Ok tt) /\
  forall c, In (s_min (column c df)) (s_values (column c df)) /\
            In (s_max (column c df)) (s_values (column c df)).
Proof.
  intros Hct Hrows Hlast. split.
  - now apply (show_summary_table df w t0 t1 r0 r1 rest).
  - intros c. unfold s_min, s_max.
    assert (Hcol : s_values (column c df) <> []).
    { unfold s_values, column. rewrite Hrows. discriminate. }
    destruct (s_values (column c df)) as [|v vs]; [contradiction|].
    split; apply fold_pick_In.
Qed.

(** X13.  A column without a value is skipped, a column that is not in
    the table is not: when none of the three columns of a table has a
    value (as in a table without rows) [show_summary] prints its three
    header lines only and returns; when the table has no [acwi] column it
    raises the key error after those lines. *)
Theorem show_summary_edge (df : DataFrame) (w : World) :
  ((forall c, In c ["acwi"; "fang"; "nikkei"] ->
      has_column c df = true /\
      forall tr, In tr (rows df) -> is_nan (row_val c (snd tr)) = true) ->
   show_summary df w = (printed [LRule "-" 50; LSummaryTitle; LRule "-" 50] w, Ok tt)) /\
  (has_column "acwi" df = false ->
   show_summary df w
   = (printed [LRule "-" 50; LSummaryTitle; LRule "-" 50] w, Raise (KeyError "acwi"))).
Proof.
  split.
  - intros H.
    assert (Hskip : forall c w', In c ["acwi"; "fang"; "nikkei"] ->
                                 summary_of df c w' = (w', Ok tt)).
    { intros c w' Hc. destruct (H c Hc) as [Hhas Hnan].
      unfold summary_of, bindM, lift, getitem. rewrite Hhas.
      rewrite s_dropna_missing; [reflexivity|].
      apply Forall_forall. intros tv Hin.
      apply in_map_iff in Hin as [tr [<- Hin]]. simpl. now apply Hnan. }
    unfold show_summary, bindM. rewrite !print_printed.
    rewrite !Hskip by (simpl; tauto). rewrite !printed_app. reflexivity.
  - intros Hno. unfold show_summary, bindM. rewrite !print_printed.
    unfold summary_of, bindM, lift, getitem. rewrite Hno.
    rewrite !printed_app. reflexivity.
Qed.

End ReporterProperties.

(** ** Whole runs of [main] *)

Section MainRuns.

Local Open Scope string_scope.

Lemma process_data_prints (data : Dict Series) : only_prints (process_data data).
Proof.
  unfold process_data.
  do 2 (apply only_prints_bind; [apply only_prints_print | intros _]).
  apply only_prints_bind; [apply only_prints_lift | intros out].
  apply only_prints_bind; [apply only_prints_print | intros _].
  apply only_prints_ret.
Qed.

(** [main] up to the end of the fetch. *)
Lemma main_after_fetch (yf : Provider) (w : World) :
  exists ls,
    main yf w =
    (if (List.length (fetched_dict yf (window_start (clock w)) (clock w) TICKERS) <? 4)%nat
     then print LMissingData
     else
       processed <--
         process_data (fetched_dict yf (window_start (clock w)) (clock w) TICKERS) ;;;
       path <-- save_to_json processed ;;;
       show_summary processed ;;;
       print (LRule "=" 50) ;;;
       print LDone ;;;
       print (LJsonFile path) ;;;
       print (LRule "=" 50))
      (printed ls w).
Proof.
  unfold main. unfold bindM at 1 2 3 4. rewrite !print_printed, !printed_app.
  cbn [app].
  destruct (fetch_data_fetched yf (printed [LRule "=" 50; LTitle; LRule "=" 50] w))
    as [ls H].
  rewrite H, printed_app. cbn [clock printed].
  eexists. reflexivity.
Qed.

(** The table of four valid series is a complete table. *)
Lemma aligned_table_complete (sa sf sn su : Series) :
  valid_series sa ->
  complete_table (mkDF FIELDS (aligned_rows sa sf sn su)).
Proof.
  intros Va. split; [reflexivity|]. cbn [rows]. split; apply Forall_forall; intros [t r] Hin;
    destruct (aligned_rows_sound sa sf sn su Va t r Hin)
      as [_ [Hc [a [f [n [u [_ [_ [_ [_ ->]]]]]]]]]].
  - unfold is_row4. simpl. eauto.
  - exact Hc.
Qed.

Lemma world_eta (w : World) (ls : list Line) :
  printed ls w = mkWorld (clock w) (dirs w) (files w) (console w ++ ls).
Proof. reflexivity. Qed.

End MainRuns.

Section MainProperties.

Local Open Scope string_scope.

(** X14.  A complete run: when all four symbols were fetched as valid
    series and their table has a row, [main] returns; afterwards the
    directory [data] exists and [data/index_data.json] holds the document
    of the table, one record per row of the table, and nothing else
    changed but the console. *)
Theorem main_complete_run (yf : Provider) (w : World) (sa sf sn su : Series) :
  fetched_dict yf (window_start (clock w)) (clock w) TICKERS = raw_data sa sf sn su ->
  valid_series sa -> valid_series sf -> valid_series sn -> valid_series su ->
  aligned_rows sa sf sn su <> [] ->
  exists ls doc,
    main yf w =
    (mkWorld (clock w) (with_output_dir (dirs w))
             (put_file filepath doc (files w)) (console w ++ ls),
     Ok tt) /\
    document_of (clock w) (mkDF FIELDS (aligned_rows sa sf sn su)) = Ok doc /\
    data doc = map row_record (aligned_rows sa sf sn su) /\
    total_records (metadata doc) = List.length (aligned_rows sa sf sn su).
Proof.
  intros Hraw Va Vf Vn Vu Hne.
  destruct (main_after_fetch yf w) as [ls0 Hmain]. rewrite Hmain, Hraw.
  cbn [raw_data List.length Nat.ltb Nat.leb].
  unfold bindM at 1.
  rewrite (process_data_run _ _ _ (process_table_raw_data sa sf sn su Va Vf Vn Vu)).
  rewrite printed_app.
  pose proof (aligned_table_complete sa sf sn su Va) as Hct.
  set (T := mkDF FIELDS (aligned_rows sa sf sn su)) in *.
  assert (Hrows : exists t0 r0 rest, rows T = (t0, r0) :: rest).
  { cbn [T rows]. destruct (aligned_rows sa sf sn su) as [|[t0 r0] rest];
      [contradiction | eauto]. }
  destruct Hrows as [t0 [r0 [rest Hrows]]].
  unfold bindM at 1. rewrite save_to_json_run. cbn [clock printed].
  assert (Hdoc := document_of_row4 (clock w) T t0 r0 rest Hrows
                    (proj1 (proj2 Hct))).
  rewrite Hdoc.
  destruct (last (rows T) (t0, r0)) as [t1 r1] eqn:Hlast.
  unfold bindM at 1.
  rewrite (show_summary_table T _ t0 t1 r0 r1 rest Hct Hrows Hlast).
  unfold bindM. rewrite !print_printed. unfold printed. cbn [clock dirs files console].
  eexists. eexists. split; [|split; [reflexivity|split]].
  - rewrite <- !app_assoc. reflexivity.
  - reflexivity.
  - reflexivity.
Qed.

(** X15.  Whatever the provider returns and however the run ends, [main]
    leaves every file but [data/index_data.json] as it was, removes no
    directory and makes no directory but [data]. *)
Theorem main_touches_only_output (yf : Provider) (w : World) :
  (forall p, p <> filepath ->
     read_file p (files (fst (main yf w))) = read_file p (files w)) /\
  (forall d, In d (dirs w) -> In d (dirs (fst (main yf w)))) /\
  (forall d, In d (dirs (fst (main yf w))) -> In d (dirs w) \/ d = OUTPUT_DIR).
Proof.
  destruct (with_output_dir_spec (dirs w)) as [_ [Hkeep [Honly _]]].
  assert (Hcases :
    exists ls W r,
      main yf w = (W, r) /\
      (W = printed ls w \/
       W = mkWorld (clock w) (with_output_dir (dirs w)) (files w) (console w ++ ls) \/
       exists doc,
         W = mkWorld (clock w) (with_output_dir (dirs w))
                     (put_file filepath doc (files w)) (console w ++ ls))).
  { destruct (main_after_fetch yf w) as [ls0 Hmain]. rewrite Hmain.
    destruct (_ <? 4)%nat.
    { rewrite print_printed, printed_app.
      eexists. eexists. eexists. split; [reflexivity|]. left. reflexivity. }
    unfold bindM at 1.
    destruct (process_data_prints
                (fetched_dict yf (window_start (clock w)) (clock w) TICKERS)
                (printed ls0 w)) as [l1 [r1 H1]].
    rewrite H1, printed_app.
    destruct r1 as [out|e];
      [|eexists; eexists; eexists; split; [reflexivity|]; left; reflexivity].
    unfold bindM at 1. rewrite save_to_json_run. cbn [clock printed dirs files console].
    destruct (document_of (clock w) out) as [doc|e].
    2:{ rewrite <- app_assoc.
        eexists. eexists. eexists. split; [reflexivity|]. right. left. reflexivity. }
    unfold bindM at 1.
    match goal with
    | |- context [show_summary out ?W] =>
        destruct (show_summary_prints out W) as [l2 [r2 H2]]; rewrite H2
    end.
    destruct r2 as [[]|e].
    - unfold bindM. rewrite !print_printed. unfold printed.
      cbn [clock dirs files console]. rewrite <- !app_assoc.
      eexists. eexists. eexists. split; [reflexivity|]. right. right.
      exists doc. reflexivity.
    - unfold printed. cbn [clock dirs files console]. rewrite <- !app_assoc.
      eexists. eexists. eexists. split; [reflexivity|]. right. right.
      exists doc. reflexivity. }
  destruct Hcases as [ls [W [r [-> [-> | [-> | [doc ->]]]]]]];
    cbn [fst printed files dirs]; repeat split; auto.
  intros p Hp. now apply read_put_other.
Qed.

(** X16.  When all four symbols were fetched as valid series but their
    table has no row, [main] ends in the indexing error of
    [save_to_json]: the directory [data] was made, no file was written,
    and no summary was printed. *)
Theorem main_empty_table (yf : Provider) (w : World) (sa sf sn su : Series) :
  fetched_dict yf (window_start (clock w)) (clock w) TICKERS = raw_data sa sf sn su ->
  valid_series sa -> valid_series sf -> valid_series sn -> valid_series su ->
  aligned_rows sa sf sn su = [] ->
  exists ls,
    main yf w =
    (mkWorld (clock w) (with_output_dir (dirs w)) (files w)
             (console w ++ ls ++ [LRule "-" 50; LProcessing; LProcessed 0;
                                  LRule "-" 50; LSaving]),
     Raise IndexError).
Proof.
  intros Hraw Va Vf Vn Vu Hempty.
  destruct (main_after_fetch yf w) as [ls0 Hmain]. rewrite Hmain, Hraw.
  cbn [raw_data List.length Nat.ltb Nat.leb].
  unfold bindM at 1.
  rewrite (process_data_run _ _ _ (process_table_raw_data sa sf sn su Va Vf Vn Vu)).
  rewrite printed_app, Hempty.
  unfold bindM at 1. rewrite save_to_json_run. cbn [clock printed dirs files console].
  exists ls0. cbn. rewrite <- !app_assoc. reflexivity.
Qed.

End MainProperties.

(** ** Sample runs *)

Section SampleRuns.

Local Open Scope string_scope.

(** A fetch that lost the exchange rate cannot be processed. *)
Lemma process_data_missing_symbol_three :
  ((forall k s, In (k, s) three_series -> NoDup (s_index s)) /\
   In "usdjpy" FIELDS /\ ~ In "usdjpy" (map fst three_series)) /\
  exists k,
    In k FIELDS /\ ~ In k (map fst three_series) /\
    process_table three_series = Raise (KeyError k).
Proof.
  assert (Hnd : forall k s, In (k, s) three_series -> NoDup (s_index s)).
  { intros k s H. simpl in H.
    destruct H as [H | [H | [H | []]]]; inversion H; subst;
      apply is_unique_NoDup; vm_compute; reflexivity. }
  assert (Hc : In "usdjpy" FIELDS) by (simpl; tauto).
  assert (Hm : ~ In "usdjpy" (map fst three_series))
    by (simpl; intuition discriminate).
  split; [tauto|].
  exact (process_data_missing_symbol three_series "usdjpy" Hnd Hc Hm).
Defined.

Lemma week_shuffled : Permutation acwi_week acwi_shuffled.
Proof.
  unfold acwi_week, acwi_shuffled, constant, week. apply Permutation_map.
  apply NoDup_Permutation.
  - repeat constructor; simpl; lia.
  - repeat constructor; simpl; lia.
  - intros x. simpl. lia.
Qed.

(** The first series stored out of order gives the same table. *)
Lemma process_data_order_insensitive_week :
  (valid_series acwi_week /\ valid_series fang_week /\
   valid_series nikkei_week /\ valid_series usdjpy_week /\
   Permutation acwi_week acwi_shuffled) /\
  exists out,
    process_table (raw_data acwi_week fang_week nikkei_week usdjpy_week) = Ok out /\
    process_table (raw_data acwi_shuffled fang_week nikkei_week usdjpy_week) = Ok out.
Proof.
  assert (Va : valid_series acwi_week) by sample_valid.
  assert (Vf : valid_series fang_week) by sample_valid.
  assert (Vn : valid_series nikkei_week) by sample_valid.
  assert (Vu : valid_series usdjpy_week) by sample_valid.
  split; [exact (conj Va (conj Vf (conj Vn (conj Vu week_shuffled))))|].
  exact (process_data_order_insensitive _ _ _ _ _ _ _ _ Va Vf Vn Vu week_shuffled
           (Permutation_refl _) (Permutation_refl _) (Permutation_refl _)).
Defined.

Lemma week_products (t : Timestamp) :
  In t (s_index acwi_week) ->
  is_nan (s_at acwi_week t * s_at usdjpy_week t) = false /\
  is_nan (s_at fang_week t * s_at usdjpy_week t) = false.
Proof. intros H. sample_cases H; split; vm_compute; reflexivity. Qed.

(** The week without gaps: five rows, nothing filled. *)
Lemma process_data_gapless_week :
  (valid_series acwi_week /\ valid_series fang_week /\
   valid_series nikkei_week /\ valid_series usdjpy_week /\
   gapless acwi_week fang_week nikkei_week usdjpy_week) /\
  exists w' out,
    process_data (raw_data acwi_week fang_week nikkei_week usdjpy_week) world0
    = (w', Ok out) /\
    Permutation (df_index out) (s_index acwi_week) /\
    len out = 5%nat /\
    forall t r, In (t, r) (rows out) ->
                r = raw_row acwi_week fang_week nikkei_week usdjpy_week t.
Proof.
  assert (Va : valid_series acwi_week) by sample_valid.
  assert (Vf : valid_series fang_week) by sample_valid.
  assert (Vn : valid_series nikkei_week) by sample_valid.
  assert (Vu : valid_series usdjpy_week) by sample_valid.
  split; [exact (conj Va (conj Vf (conj Vn (conj Vu week_gapless))))|].
  exact (process_data_gapless acwi_week fang_week nikkei_week usdjpy_week world0
           Va Vf Vn Vu week_gapless week_products).
Defined.

(** Saving over an older output file: the new document is consistent. *)
Lemma save_to_json_consistent_week :
  exists df path,
    snd (save_to_json df world_with_files) = Ok path /\
    exists doc,
      read_file path (files (fst (save_to_json df world_with_files))) = Some doc /\
      total_records (metadata doc) = List.length (data doc) /\
      map date (data doc) = map strftime_ymd (df_index df) /\
      hd_error (map date (data doc)) = Some (start_date (metadata doc)) /\
      last (map date (data doc)) "" = end_date (metadata doc).
Proof.
  exists (mkDF FIELDS (aligned_rows acwi_week fang_week nikkei_week usdjpy_week)).
  exists filepath.
  assert (H : snd (save_to_json
                     (mkDF FIELDS (aligned_rows acwi_week fang_week nikkei_week
                                                usdjpy_week))
                     world_with_files) = Ok filepath)
    by (vm_compute; reflexivity).
  split; [exact H|].
  exact (save_to_json_consistent _ world_with_files filepath H).
Defined.

(** A table without the [fang] column is not written. *)
Lemma save_to_json_missing_field_fang :
  (In (jan 1, [("acwi", 15000%float); ("nikkei", 30000%float); ("usdjpy", 150%float)])
      (rows table_without_fang) /\
   In "fang" FIELDS /\
   row_find "fang" [("acwi", 15000%float); ("nikkei", 30000%float); ("usdjpy", 150%float)]
   = None) /\
  exists k,
    snd (save_to_json table_without_fang world_with_files) = Raise (KeyError k) /\
    files (fst (save_to_json table_without_fang world_with_files))
    = files world_with_files.
Proof.
  assert (Hin : In (jan 1, [("acwi", 15000%float); ("nikkei", 30000%float);
                            ("usdjpy", 150%float)])
                   (rows table_without_fang)) by (simpl; tauto).
  assert (Hc : In "fang" FIELDS) by (simpl; tauto).
  assert (Hn : row_find "fang" [("acwi", 15000%float); ("nikkei", 30000%float);
                                ("usdjpy", 150%float)] = None) by reflexivity.
  split; [tauto|].
  exact (save_to_json_missing_field table_without_fang world_with_files _ _ "fang"
           Hin Hc Hn).
Defined.

(** The week, processed and saved: five records of numbers. *)
Lemma pipeline_records_are_numbers_week :
  exists w1 out w2 path,
    (valid_series acwi_week /\ valid_series fang_week /\
     valid_series nikkei_week /\ valid_series usdjpy_week /\
     process_data (raw_data acwi_week fang_week nikkei_week usdjpy_week) world0
     = (w1, Ok out) /\
     save_to_json out w1 = (w2, Ok path)) /\
    exists doc,
      read_file path (files w2) = Some doc /\
      data doc = map row_record (rows out) /\
      forall rec, In rec (data doc) ->
        exists t a f n u,
          In (t, row4 a f n u) (rows out) /\
          rec = mkRecord (strftime_ymd t) (JNumber (round2 a)) (JNumber (round2 f))
                         (JNumber (round2 n)) (JNumber (round2 u)).
Proof.
  assert (Va : valid_series acwi_week) by sample_valid.
  assert (Vf : valid_series fang_week) by sample_valid.
  assert (Vn : valid_series nikkei_week) by sample_valid.
  assert (Vu : valid_series usdjpy_week) by sample_valid.
  eexists. eexists. eexists. eexists.
  assert (Hp : process_data (raw_data acwi_week fang_week nikkei_week usdjpy_week) world0
               = (fst (process_data (raw_data acwi_week fang_week nikkei_week usdjpy_week)
                                    world0),
                  Ok (mkDF FIELDS (aligned_rows acwi_week fang_week nikkei_week
                                                usdjpy_week))))
    by (vm_compute; reflexivity).
  assert (Hs : save_to_json
                 (mkDF FIELDS (aligned_rows acwi_week fang_week nikkei_week usdjpy_week))
                 (fst (process_data (raw_data acwi_week fang_week nikkei_week usdjpy_week)
                                    world0))
               = (fst (save_to_json
                         (mkDF FIELDS (aligned_rows acwi_week fang_week nikkei_week
                                                    usdjpy_week))
                         (fst (process_data
                                 (raw_data acwi_week fang_week nikkei_week usdjpy_week)
                                 world0))),
                  Ok filepath))
    by (vm_compute; reflexivity).
  split; [exact (conj Va (conj Vf (conj Vn (conj Vu (conj Hp Hs)))))|].
  exact (pipeline_records_are_numbers _ _ _ _ _ _ _ _ _ Va Vf Vn Vu Hp Hs).
Defined.

(** The summary of the week: three blocks of five rows each. *)
Lemma show_summary_complete_week :
  exists df t0 r0 rest t1 r1,
    (complete_table df /\ rows df = (t0, r0) :: rest /\
     last (rows df) (t0, r0) = (t1, r1)) /\
    show_summary df world0 =
    (printed ([LRule "-" 50; LSummaryTitle; LRule "-" 50]
              ++ summary_block df "acwi" t0 t1 r1
              ++ summary_block df "fang" t0 t1 r1
              ++ summary_block df "nikkei" t0 t1 r1) world0,
     Ok tt) /\
    len df = 5%nat /\ strftime_ymd t0 = "2024-01-01" /\ strftime_ymd t1 = "2024-01-05".
Proof.
  assert (Va : valid_series acwi_week) by sample_valid.
  exists (mkDF FIELDS (aligned_rows acwi_week fang_week nikkei_week usdjpy_week)).
  exists (jan 1), (row4 15000 1050 30000 150).
  exists (map (fun d => (jan d, row4 15000 1050 30000 150)) [2; 3; 4; 5]).
  exists (jan 5), (row4 15000 1050 30000 150).
  assert (Hct := aligned_table_complete acwi_week fang_week nikkei_week usdjpy_week Va).
  assert (Hrows : rows (mkDF FIELDS (aligned_rows acwi_week fang_week nikkei_week
                                                  usdjpy_week))
                  = (jan 1, row4 15000 1050 30000 150)
                    :: map (fun d => (jan d, row4 15000 1050 30000 150)) [2; 3; 4; 5])
    by (vm_compute; reflexivity).
  assert (Hlast : last (rows (mkDF FIELDS (aligned_rows acwi_week fang_week nikkei_week
                                                        usdjpy_week)))
                       (jan 1, row4 15000 1050 30000 150)
                  = (jan 5, row4 15000 1050 30000 150))
    by (vm_compute; reflexivity).
  split; [exact (conj Hct (conj Hrows Hlast))|].
  split; [exact (proj1 (show_summary_complete _ world0 _ _ _ _ _ Hct Hrows Hlast))|].
  repeat split; vm_compute; reflexivity.
Defined.

(** A complete run on the week: the file holds five records. *)
Lemma main_complete_run_week :
  (fetched_dict provider_week (window_start (clock world0)) (clock world0) TICKERS
   = raw_data acwi_week fang_week nikkei_week usdjpy_week /\
   valid_series acwi_week /\ valid_series fang_week /\
   valid_series nikkei_week /\ valid_series usdjpy_week /\
   aligned_rows acwi_week fang_week nikkei_week usdjpy_week <> []) /\
  exists ls doc,
    main provider_week world0 =
    (mkWorld (clock world0) (with_output_dir (dirs world0))
             (put_file filepath doc (files world0)) (console world0 ++ ls),
     Ok tt) /\
    total_records (metadata doc) = 5%nat.
Proof.
  assert (Hraw : fetched_dict provider_week (window_start (clock world0)) (clock world0)
                              TICKERS
                 = raw_data acwi_week fang_week nikkei_week usdjpy_week)
    by (vm_compute; reflexivity).
  assert (Va : valid_series acwi_week) by sample_valid.
  assert (Vf : valid_series fang_week) by sample_valid.
  assert (Vn : valid_series nikkei_week) by sample_valid.
  assert (Vu : valid_series usdjpy_week) by sample_valid.
  assert (Hne : aligned_rows acwi_week fang_week nikkei_week usdjpy_week <> [])
    by (vm_compute; discriminate).
  split; [exact (conj Hraw (conj Va (conj Vf (conj Vn (conj Vu Hne)))))|].
  destruct (main_complete_run provider_week world0 _ _ _ _ Hraw Va Vf Vn Vu Hne)
    as [ls [doc [Hmain [_ [_ Hn]]]]].
  exists ls, doc. split; [exact Hmain|]. rewrite Hn. vm_compute. reflexivity.
Defined.

(** A run whose table has no row: the second series starts too late. *)
Lemma main_empty_table_late :
  (fetched_dict provider_late (window_start (clock world0)) (clock world0) TICKERS
   = raw_data [(jan 1, 1%float); (jan 2, 2%float)] fang_late
              [(jan 1, 1%float); (jan 2, 2%float)] [(jan 1, 1%float); (jan 2, 2%float)] /\
   aligned_rows [(jan 1, 1%float); (jan 2, 2%float)] fang_late
                [(jan 1, 1%float); (jan 2, 2%float)] [(jan 1, 1%float); (jan 2, 2%float)]
   = []) /\
  exists ls,
    main provider_late world0 =
    (mkWorld (clock world0) (with_output_dir (dirs world0)) (files world0)
             (console world0 ++ ls ++ [LRule "-" 50; LProcessing; LProcessed 0;
                                       LRule "-" 50; LSaving]),
     Raise IndexError).
Proof.
  assert (Hraw : fetched_dict provider_late (window_start (clock world0)) (clock world0)
                              TICKERS
                 = raw_data [(jan 1, 1%float); (jan 2, 2%float)] fang_late
                            [(jan 1, 1%float); (jan 2, 2%float)]
                            [(jan 1, 1%float); (jan 2, 2%float)])
    by (vm_compute; reflexivity).
  assert (V1 : valid_series [(jan 1, 1%float); (jan 2, 2%float)]) by sample_valid.
  assert (Vf : valid_series fang_late) by sample_valid.
  assert (He : aligned_rows [(jan 1, 1%float); (jan 2, 2%float)] fang_late
                            [(jan 1, 1%float); (jan 2, 2%float)]
                            [(jan 1, 1%float); (jan 2, 2%float)] = [])
    by (vm_compute; reflexivity).
  split; [split; [exact Hraw | exact He]|].
  exact (main_empty_table provider_late world0 _ _ _ _ Hraw V1 Vf V1 V1 He).
Defined.

End SampleRuns.

(** ** Where the values of the table come from *)

Section TableValues.

Local Open Scope string_scope.

Lemma filled_number (idx : list Timestamp) (s : Series) (t : Timestamp) (v : float) :
  filled idx s t v -> is_nan v = false ->
  exists t', In t' idx /\ t' <= t /\ In (t', v) s.
Proof.
  intros [[t' [Hin [Hle [Hobs [-> _]]]]] | [-> _]] Hv; [|discriminate].
  exists t'. repeat split; auto. now apply s_at_notna_In.
Qed.

(** X17.  No value of the table is invented: in every row the exchange
    rate and the nikkei value are entries of their raw series, and the
    acwi and fang values are the product of an entry of their raw series
    with that exchange rate; each entry used is dated on a date of the
    first series that is not after the date of the row, and none is a
    missing value. *)
Theorem process_data_values_observed (sa sf sn su : Series) (w : World) :
  valid_series sa -> valid_series sf -> valid_series sn -> valid_series su ->
  exists w' out,
    process_data (raw_data sa sf sn su) w = (w', Ok out) /\
    forall t r, In (t, r) (rows out) ->
      exists ta a tf f tn n tu u,
        r = row4 (a * u) (f * u) n u /\
        In (ta, a) sa /\ In (tf, f) sf /\ In (tn, n) sn /\ In (tu, u) su /\
        Forall (fun d => In d (s_index sa) /\ d <= t) [ta; tf; tn; tu] /\
        Forall (fun x => is_nan x = false) [a; f; n; u].
Proof.
  intros Va Vf Vn Vu.
  eexists. eexists. split; [apply process_data_run; now apply process_table_raw_data|].
  cbn [rows]. intros t r Hin.
  destruct (aligned_rows_sound sa sf sn su Va t r Hin)
    as [_ [Hc [a [f [n [u [Ha [Hf [Hn [Hu ->]]]]]]]]]].
  apply row4_complete in Hc as [Hau [Hfu [Hn' Hu']]].
  apply mul_notna in Hau as [Ha' _]. apply mul_notna in Hfu as [Hf' _].
  destruct (filled_number _ _ _ _ Ha Ha') as [ta [Ia [La Ea]]].
  destruct (filled_number _ _ _ _ Hf Hf') as [tf [If [Lf Ef]]].
  destruct (filled_number _ _ _ _ Hn Hn') as [tn [In' [Ln En]]].
  destruct (filled_number _ _ _ _ Hu Hu') as [tu [Iu [Lu Eu]]].
  exists ta, a, tf, f, tn, n, tu, u.
  repeat split; auto; repeat constructor; auto.
Qed.

(** X18.  The table never has more rows than the first series has
    entries, and every date of the table is a date of the first series:
    dates on which only another series has an entry give no row. *)
Theorem process_data_row_bound (sa sf sn su : Series) (w : World) :
  valid_series sa -> valid_series sf -> valid_series sn -> valid_series su ->
  exists w' out,
    process_data (raw_data sa sf sn su) w = (w', Ok out) /\
    (len out <= List.length sa)%nat /\
    forall t, In t (df_index out) -> In t (s_index sa).
Proof.
  intros Va Vf Vn Vu.
  eexists. eexists. split; [apply process_data_run; now apply process_table_raw_data|].
  assert (Hincl : forall t, In t (df_index (mkDF FIELDS (aligned_rows sa sf sn su))) ->
                            In t (s_index sa)).
  { intros t Hin. unfold df_index in Hin. cbn [rows] in Hin.
    apply in_map_iff in Hin as [[t' r] [Heq Hin]]. simpl in Heq. subst t'.
    now apply (aligned_rows_sound sa sf sn su Va) in Hin. }
  split; [|exact Hincl].
  assert (Hlen : (List.length (df_index (mkDF FIELDS (aligned_rows sa sf sn su)))
                  <= List.length (s_index sa))%nat).
  { apply NoDup_incl_length; [|exact Hincl].
    apply sorted_NoDup. now apply aligned_rows_sorted. }
  unfold df_index, s_index in Hlen. rewrite !length_map in Hlen. exact Hlen.
Qed.

End TableValues.

Section MoreSampleRuns.

Local Open Scope string_scope.

Lemma process_data_values_observed_gap :
  (valid_series acwi_gap /\ valid_series fang_gap /\
   valid_series nikkei_gap /\ valid_series usdjpy_gap) /\
  exists w' out,
    process_data (raw_data acwi_gap fang_gap nikkei_gap usdjpy_gap) world0 = (w', Ok out) /\
    forall t r, In (t, r) (rows out) ->
      exists ta a tf f tn n tu u,
        r = row4 (a * u) (f * u) n u /\
        In (ta, a) acwi_gap /\ In (tf, f) fang_gap /\
        In (tn, n) nikkei_gap /\ In (tu, u) usdjpy_gap /\
        Forall (fun d => In d (s_index acwi_gap) /\ d <= t) [ta; tf; tn; tu] /\
        Forall (fun x => is_nan x = false) [a; f; n; u].
Proof.
  assert (Va : valid_series acwi_gap) by sample_valid.
  assert (Vf : valid_series fang_gap) by sample_valid.
  assert (Vn : valid_series nikkei_gap) by sample_valid.
  assert (Vu : valid_series usdjpy_gap) by sample_valid.
  split; [exact (conj Va (conj Vf (conj Vn Vu)))|].
  exact (process_data_values_observed acwi_gap fang_gap nikkei_gap usdjpy_gap world0
           Va Vf Vn Vu).
Defined.

(** Two dates in the first series, three in the union: two rows. *)
Lemma process_data_row_bound_gap :
  (valid_series acwi_gap /\ valid_series fang_gap /\
   valid_series nikkei_gap /\ valid_series usdjpy_gap) /\
  exists w' out,
    process_data (raw_data acwi_gap fang_gap nikkei_gap usdjpy_gap) world0 = (w', Ok out) /\
    (len out <= 2)%nat /\
    forall t, In t (df_index out) -> In t (s_index acwi_gap).
Proof.
  assert (Va : valid_series acwi_gap) by sample_valid.
  assert (Vf : valid_series fang_gap) by sample_valid.
  assert (Vn : valid_series nikkei_gap) by sample_valid.
  assert (Vu : valid_series usdjpy_gap) by sample_valid.
  split; [exact (conj Va (conj Vf (conj Vn Vu)))|].
  exact (process_data_row_bound acwi_gap fang_gap nikkei_gap usdjpy_gap world0
           Va Vf Vn Vu).
Defined.

(** The summary of a table without rows, and of a table without the
    first column. *)
Lemma show_summary_edge_empty :
  show_summary (mkDF FIELDS []) world0
  = (printed [LRule "-" 50; LSummaryTitle; LRule "-" 50] world0, Ok tt) /\
  show_summary (mkDF ["fang"; "nikkei"] []) world0
  = (printed [LRule "-" 50; LSummaryTitle; LRule "-" 50] world0,
     Raise (KeyError "acwi")).
Proof.
  split.
  - apply (proj1 (show_summary_edge (mkDF FIELDS []) world0)).
    intros c Hc. split.
    + simpl in Hc. destruct Hc as [<- | [<- | [<- | []]]]; reflexivity.
    + intros tr [].
  - apply (proj2 (show_summary_edge (mkDF ["fang"; "nikkei"] []) world0)).
    reflexivity.
Defined.

End MoreSampleRuns.

(** ** The fields of a record, and the fill behind a conversion *)

Section FieldsAndFills.

Local Open Scope string_scope.





(** In the union of the dates of the gap sample the exchange rate at
    01-03 is filled with the quote of 01-02, not with 150.0. *)
Lemma union_fill_of_gap_sample :
  ~ filled (union_index acwi_gap fang_gap nikkei_gap usdjpy_gap) usdjpy_gap (jan 3) 150.
Proof.
  intros [[t' [_ [Hle [Hobs [Hv Hmax]]]]] | [Hv _]].
  - assert (H2 : jan 2 <= t').
    { apply Hmax; vm_compute; try tauto; try reflexivity. discriminate. }
    unfold observed, s_at, usdjpy_gap in Hobs, Hv. cbn [s_find] in Hobs, Hv.
    destruct (Z.eqb_spec (jan 1) t') as [E1|_].
    { subst t'. vm_compute in H2. now elim H2. }
    destruct (Z.eqb_spec (jan 2) t') as [E2|_].
    + apply (f_equal (fun x => (x <? 151)%float)) in Hv. vm_compute in Hv. discriminate.
    + vm_compute in Hobs. discriminate.
  - apply (f_equal is_nan) in Hv. vm_compute in Hv. discriminate.
Qed.

(** C4, as stated, fails.  With acwi 100.0 on 01-01 and 01-03 and the
    exchange rate 150.0 on 01-01 and 151.0 on 01-02, the row of 01-03
    holds 150.0 and 15000.0; forward-filled along the union of the dates
    the exchange rate there is 151.0. *)
Lemma conversion_not_along_union :
  exists out,
    process_table (raw_data acwi_gap fang_gap nikkei_gap usdjpy_gap) = Ok out /\
    In (jan 3, row4 15000 1050 30000 150) (rows out) /\
    ~ converted_along (union_index acwi_gap fang_gap nikkei_gap usdjpy_gap)
                      acwi_gap fang_gap nikkei_gap usdjpy_gap out.
Proof.
  eexists. split; [vm_compute; reflexivity|].
  split; [vm_compute; tauto|].
  intros Hconv.
  destruct (Hconv (jan 3) (row4 15000 1050 30000 150)) as [a [f [n [u H]]]].
  { vm_compute. tauto. }
  destruct H as [_ [_ [_ [Hu [_ [_ [_ Hfield]]]]]]].
  unfold field_is in Hfield. cbn in Hfield. inversion Hfield; subst u.
  exact (union_fill_of_gap_sample Hu).
Qed.


End FieldsAndFills.
